(** * Perception pipeline of easy_baxter: [scripts/image_processing.py]

    A shallow embedding of [get_angle], [detect] and [process_image], and the
    properties of the pipeline stated over it.

    Conventions of the embedding.
    - Python floats are idealised as real numbers ([R]); integer pixel
      coordinates and 8-bit channels are [Z].
    - A numpy array that the code mutates in place lives in a heap of pixel
      buffers; a slice of it is a view on the same buffer.
    - The OpenCV routines whose result depends on pixel neighbourhoods
      (blur, colour conversion, morphology, edge and contour extraction,
      rectangle fitting, drawing) are parameters of the development; the
      per-pixel ones ([inRange], [bitwise_or], [bitwise_and], uint8 addition)
      and the polygon moments are written out. *)

From stdpp Require Import base option list gmap strings.
From Stdlib Require Import ZArith Reals Lra Lia.

Open Scope R_scope.

(** ** Numbers *)

(** Python's [x % y] on floats, for a positive modulus: [x - floor(x/y)*y]. *)
Definition py_mod (x y : R) : R := x - IZR (Int_part (x / y)) * y.

(** Python 2 [round(x, 2)]: nearest multiple of 0.01, halves away from zero. *)
Definition py_round2 (x : R) : R :=
  if Rle_dec 0 x
  then IZR (Int_part (x * 100 + / 2)) / 100
  else - (IZR (Int_part (- x * 100 + / 2)) / 100).

(** [int(x)] and [np.intp(x)] on a float: truncation towards zero. *)
Definition trunc (x : R) : Z :=
  if Rle_dec 0 x then Int_part x else (- Int_part (- x))%Z.

(** ** Points, edges and rectangles *)

Definition Pt : Type := (Z * Z)%type.

(** The four corners returned by [cv2.boxPoints], after [np.intp]. *)
Record BoxPoints := mkBox { pt0 : Pt; pt1 : Pt; pt2 : Pt; pt3 : Pt }.

Definition box_list (b : BoxPoints) : list Pt := [pt0 b; pt1 b; pt2 b; pt3 b].

(** Difference of two rows of an integer array. *)
Definition pt_sub (a b : Pt) : Pt := ((a.1 - b.1)%Z, (a.2 - b.2)%Z).

(** [np.linalg.norm] of a 2-vector. *)
Definition linalg_norm (v : R * R) : R := sqrt (v.1 * v.1 + v.2 * v.2).

Definition to_float (p : Pt) : R * R := (IZR p.1, IZR p.2).

Definition edge1 (rect_points : BoxPoints) : Pt :=
  pt_sub (pt1 rect_points) (pt0 rect_points).
Definition edge2 (rect_points : BoxPoints) : Pt :=
  pt_sub (pt2 rect_points) (pt1 rect_points).

Definition used_edge (rect_points : BoxPoints) : Pt :=
  if Rlt_dec (linalg_norm (to_float (edge1 rect_points)))
             (linalg_norm (to_float (edge2 rect_points)))
  then edge2 rect_points
  else edge1 rect_points.

Definition reference : R * R := (1, 0).

(** [get_angle], lines 65-81.  The arithmetic is kept in the source's
    association: [a / b / c * d + e * f].  For a box whose first three
    corners coincide the source divides by a zero norm and yields nan; the
    results below about [get_angle] exclude that box, and [detect] never
    reaches [get_angle] with it (see [moments_m00_edges]).

    The real numbers stand for the source's floats up to rounding, except
    at an edge that points along the negative x axis, where the function
    jumps: the cosine is -1 and the value -pi here, and in the source the
    product [1.0 / n * (-n)] is -1.0 for some lengths n (10 is one) and the
    float just above it for others (49 is one), which gives -pi for the
    former and a yaw just below pi for the latter.  The general results
    below are stated away from that edge; the box [box_west], of length 10,
    is one where the source does return -pi. *)
Definition get_angle (rect_points : BoxPoints) : R :=
  let e := used_edge rect_points in
  let my_angle :=
    acos (linalg_norm reference /
          linalg_norm (to_float e) /
          reference.1 * IZR e.1 +
          reference.2 * IZR e.2) + PI in
  py_mod my_angle (2 * PI) - PI.

(** The specification's reading of the yaw: the unsigned angle between two
    vectors by the dot-product relation, and the longer of the two adjacent
    edges, the first when they are equal.  The lengths are compared by their
    squares, which are integers. *)
Definition dot (u v : R * R) : R := u.1 * v.1 + u.2 * v.2.

Definition angle_between (u v : R * R) : R :=
  acos (dot u v / (linalg_norm u * linalg_norm v)).

Definition sq_norm (p : Pt) : Z := (p.1 * p.1 + p.2 * p.2)%Z.

Definition longer_edge (b : BoxPoints) : Pt :=
  if (sq_norm (edge1 b) <? sq_norm (edge2 b))%Z then edge2 b else edge1 b.

(** ** Image moments

    [cv2.moments] of a polygon given by integer points: the Green-formula
    sums over consecutive corners, starting from the last one, that OpenCV
    uses for contours.  Only the three moments read by [detect] are kept.
    The sums are integers; the moments are all zero when [a00] is, and the
    sign of [a00] (the orientation of the polygon) is divided out. *)

Record Moments := mkMoments { m00 : R; m10 : R; m01 : R }.

Fixpoint green_sums (prev : Pt) (l : list Pt) : Z * Z * Z :=
  match l with
  | [] => (0, 0, 0)%Z
  | p :: l' =>
      let dxy := (prev.1 * p.2 - p.1 * prev.2)%Z in
      let '(a00, a10, a01) := green_sums p l' in
      ((dxy + a00)%Z,
       (dxy * (prev.1 + p.1) + a10)%Z,
       (dxy * (prev.2 + p.2) + a01)%Z)
  end.

Definition contour_sums (contour : list Pt) : Z * Z * Z :=
  green_sums (List.last contour (0, 0)%Z) contour.

Definition moments (contour : list Pt) : Moments :=
  let '(a00, a10, a01) := contour_sums contour in
  if (a00 =? 0)%Z then mkMoments 0 0 0
  else if (0 <? a00)%Z
       then mkMoments (IZR a00 / 2) (IZR a10 / 6) (IZR a01 / 6)
       else mkMoments (- IZR a00 / 2) (- IZR a10 / 6) (- IZR a01 / 6).

(** ** Exceptions and the buffer heap *)

Inductive exn := ZeroDivisionError.

Inductive result (A : Type) :=
  | Ok (a : A)
  | Raise (e : exn).
Arguments Ok {A} a.
Arguments Raise {A} e.

Definition Pixel : Type := (Z * Z * Z)%type.
Definition Frame : Type := list (list Pixel).
Definition Mask : Type := list (list Z).

(** The value of a result under [f]; an exception stays. *)
Definition fmap_result {A B} (f : A -> B) (r : result A) : result B :=
  match r with
  | Ok a => Ok (f a)
  | Raise e => Raise e
  end.

(** A computation that may raise and may draw on the buffers of the heap.
    The heap is kept when an exception is raised: what was drawn stays. *)
Definition M (A : Type) : Type :=
  gmap nat Frame -> result A * gmap nat Frame.

Definition ret {A} (a : A) : M A := fun h => (Ok a, h).
Definition raise {A} (e : exn) : M A := fun h => (Raise e, h).
Definition bind {A B} (c : M A) (k : A -> M B) : M B :=
  fun h => match c h with
           | (Ok a, h') => k a h'
           | (Raise e, h') => (Raise e, h')
           end.

Notation "'let*' x ':=' c 'in' k" := (bind c (fun x => k))
  (at level 10, x name, c at level 100, k at level 200).
Notation "'let*' ( x , y ) ':=' c 'in' k" :=
  (bind c (fun xy => let x := xy.1 in let y := xy.2 in k))
  (at level 10, x name, y name, c at level 100, k at level 200).

(** Python's float division: [ZeroDivisionError] on a zero divisor. *)
Definition py_div (x y : R) : M R :=
  if Req_dec_T y 0 then raise ZeroDivisionError else ret (x / y).

(** *** Slices and views *)

(** [l[lo:hi]] for [0 <= lo]. *)
Definition py_slice {A} (lo hi : Z) (l : list A) : list A :=
  take (Z.to_nat hi - Z.to_nat lo) (drop (Z.to_nat lo) l).

(** Writing [new] over [l] from index [lo] on. *)
Definition splice {A} (lo : Z) (new l : list A) : list A :=
  take (Z.to_nat lo) l ++ new ++ drop (Z.to_nat lo + length new) l.

Definition crop (f : Frame) (rows cols : Z * Z) : Frame :=
  map (py_slice cols.1 cols.2) (py_slice rows.1 rows.2 f).

Definition paste (f : Frame) (rows cols : Z * Z) (new : Frame) : Frame :=
  splice rows.1
         (zip_with (fun old nw => splice cols.1 nw old)
                   (py_slice rows.1 rows.2 f) new)
         f.

(** [a[r0:r1, c0:c1]] of a numpy array: a window on the buffer of [a]. *)
Record View := mkView { v_base : nat; v_rows : Z * Z; v_cols : Z * Z }.

(** The pixels of the array at address [a]. *)
Definition buffer (h : gmap nat Frame) (a : nat) : Frame := default [] (h !! a).

(** Reading through a view: the pixels the buffer holds at that time. *)
Definition read_view (v : View) : M Frame :=
  fun h => (Ok (crop (buffer h (v_base v)) (v_rows v) (v_cols v)), h).

(** An OpenCV drawing call on a whole array: the buffer is overwritten. *)
Definition draw_on_array (a : nat) (draw : Frame -> Frame) : M unit :=
  fun h => (Ok tt, <[a := draw (buffer h a)]> h).

(** An OpenCV drawing call on a view: the window of the buffer is
    overwritten, the rest of the buffer stays. *)
Definition draw_on_view (v : View) (draw : Frame -> Frame) : M unit :=
  fun h =>
    let f := buffer h (v_base v) in
    (Ok tt,
     <[v_base v := paste f (v_rows v) (v_cols v)
                         (draw (crop f (v_rows v) (v_cols v)))]> h).

(** ** Per-pixel OpenCV and numpy operations *)

Definition in_range (p lower upper : Pixel) : bool :=
  let '(p0, p1, p2) := p in
  let '(l0, l1, l2) := lower in
  let '(u0, u1, u2) := upper in
  ((l0 <=? p0) && (p0 <=? u0) && (l1 <=? p1) && (p1 <=? u1)
   && (l2 <=? p2) && (p2 <=? u2))%Z.

(** [cv2.inRange]: 255 where the pixel is inside the box, 0 elsewhere. *)
Definition inRange (src : Frame) (lower upper : Pixel) : Mask :=
  map (map (fun p => if in_range p lower upper then 255%Z else 0%Z)) src.

Definition bitwise_or (a b : Mask) : Mask :=
  zip_with (zip_with Z.lor) a b.

(** [cv2.bitwise_and(a, b, mask=m)]: the channel-wise and where the mask is
    set, black elsewhere. *)
Definition bitwise_and (a b : Frame) (m : Mask) : Frame :=
  zip_with
    (fun ab mrow =>
       zip_with (fun (pq : Pixel * Pixel) (k : Z) =>
                   let '((p0, p1, p2), (q0, q1, q2)) := pq in
                   if (k =? 0)%Z then (0, 0, 0)%Z
                   else (Z.land p0 q0, Z.land p1 q1, Z.land p2 q2))
                (zip ab.1 ab.2) mrow)
    (zip a b) m.

(** [+] on uint8 arrays wraps around. *)
Definition uint8_add (a b : Frame) : Frame :=
  zip_with
    (zip_with (fun (p q : Pixel) =>
                 let '(p0, p1, p2) := p in
                 let '(q0, q1, q2) := q in
                 (((p0 + q0) mod 256)%Z, ((p1 + q1) mod 256)%Z,
                  ((p2 + q2) mod 256)%Z)))
    a b.

(** ** Configuration constants, lines 35-53 *)

Definition ACTUAL_WIDTH : Z := 43.
Definition ACTUAL_HEIGHT : Z := 20.

Definition LOWER_BLUE : Pixel := (90, 80, 10)%Z.
Definition UPPER_BLUE : Pixel := (160, 255, 170)%Z.
Definition LOWER_GREEN : Pixel := (80, 100, 0)%Z.
Definition UPPER_GREEN : Pixel := (130, 255, 255)%Z.
Definition LOWER_YELLOW : Pixel := (5, 60, 75)%Z.
Definition UPPER_YELLOW : Pixel := (40, 130, 255)%Z.
Definition LOWER_RED_1 : Pixel := (0, 70, 0)%Z.
Definition UPPER_RED_1 : Pixel := (10, 255, 255)%Z.
Definition LOWER_RED_2 : Pixel := (150, 70, 50)%Z.
Definition UPPER_RED_2 : Pixel := (179, 255, 255)%Z.

(** ** The OpenCV routines taken as parameters *)

Inductive ColorConversion := COLOR_BGR2HSV | COLOR_HSV2BGR_FULL.

Definition Contour : Type := list Pt.

Definition Corners : Type := ((R * R) * (R * R) * (R * R) * (R * R))%type.

(** Drawing routines are given by what they make of the pixels of the array
    they draw on; the in-place write is [draw_on_array] / [draw_on_view].
    [findContours] stands for the call with [RETR_EXTERNAL] and
    [CHAIN_APPROX_SIMPLE]; [getStructuringElement] for the one with
    [MORPH_ELLIPSE]. *)
Class OpenCV := {
  RotatedRect : Type;
  rectangle : Frame -> Pt -> Pt -> Pixel -> Z -> Frame;
  medianBlur : Frame -> Z -> Frame;
  cvtColor : Frame -> ColorConversion -> Frame;
  getStructuringElement : Z * Z -> Mask;
  dilate : Mask -> Mask -> Z -> Mask;
  erode : Mask -> Mask -> Z -> Mask;
  Canny : Frame -> Z -> Z -> Mask;
  findContours : Mask -> list Contour;
  contourArea : Contour -> R;
  minAreaRect : Contour -> RotatedRect;
  boxPoints : RotatedRect -> Corners;
  drawContours : Frame -> list BoxPoints -> Z -> Pixel -> Z -> Frame
}.

(** [np.intp] of the 4x2 float array of [cv2.boxPoints]. *)
Definition intp_box (c : Corners) : BoxPoints :=
  let '(a, b, c, d) := c in
  mkBox (trunc a.1, trunc a.2) (trunc b.1, trunc b.2)
        (trunc c.1, trunc c.2) (trunc d.1, trunc d.2).

(** The four colours thresholded by [process_image]. *)
Inductive ColorClass := Red | Blue | Green | Yellow.

(** One entry of a detection list: [[x, y, z], [roll, pitch, yaw]]. *)
Record DetectedObject := mkObject {
  position : R * R * R;
  orientation : R * R * R
}.

Section Pipeline.
Context {cv : OpenCV}.

(** The test of line 97. *)
Definition passes_area_filter (i : Contour) : bool :=
  if Rgt_dec (contourArea i) 800 then true else false.

(** Lines 98-111: the pose of one surviving contour. *)
Definition pose (dimensions scale : R * R) (box_points : BoxPoints)
  : M DetectedObject :=
  let moments := moments (box_list box_points) in
  let* q := py_div (m10 moments) (m00 moments) in
  let center_x := q - dimensions.1 / 2 in
  let center_x := py_round2 (center_x * scale.1) in
  let* q := py_div (m01 moments) (m00 moments) in
  let center_y := q - dimensions.2 / 2 in
  let center_y := py_round2 (center_y * scale.2) in
  let angle := py_round2 (get_angle box_points) in
  ret (mkObject (- center_x, center_y, 6.5) (0, 0, angle)).

(** The [for] loop of lines 96-112; [detected] is the list appended to. *)
Fixpoint detect_loop (dimensions scale : R * R) (display : View)
    (contours : list Contour) (detected : list DetectedObject)
  : M (list DetectedObject) :=
  match contours with
  | [] => ret detected
  | i :: contours' =>
      if passes_area_filter i then
        let rect := minAreaRect i in
        let box_points := intp_box (boxPoints rect) in
        let* object := pose dimensions scale box_points in
        let detected := detected ++ [object] in
        let* _ := draw_on_view display
                    (fun d => drawContours d [box_points] 0
                                           (255, 255, 0)%Z 2) in
        detect_loop dimensions scale display contours' detected
      else detect_loop dimensions scale display contours' detected
  end.

(** [detect], lines 84-114. *)
Definition detect (image : Frame) (dimensions scale : R * R)
    (display : View) : M (list DetectedObject * View) :=
  let image := cvtColor image COLOR_HSV2BGR_FULL in
  let canny := Canny image 10 80 in
  let contours := findContours canny in
  let* detected := detect_loop dimensions scale display contours [] in
  ret (detected, display).

(** Lines 189-191: the red mask before the morphological cleanup. *)
Definition red_mask (hsv : Frame) : Mask :=
  let mask_r_1 := inRange hsv LOWER_RED_1 UPPER_RED_1 in
  let mask_r_2 := inRange hsv LOWER_RED_2 UPPER_RED_2 in
  bitwise_or mask_r_1 mask_r_2.

(** The thresholding of each colour, lines 189-191, 197, 203 and 209. *)
Definition threshold (c : ColorClass) (hsv : Frame) : Mask :=
  match c with
  | Red => red_mask hsv
  | Blue => inRange hsv LOWER_BLUE UPPER_BLUE
  | Green => inRange hsv LOWER_GREEN UPPER_GREEN
  | Yellow => inRange hsv LOWER_YELLOW UPPER_YELLOW
  end.

(** The cleanup and masking repeated for each colour, lines 192-194,
    198-200, 204-206 and 210-212. *)
Definition masked (c : ColorClass) (image hsv : Frame) (kernel : Mask)
  : Frame :=
  let mask := threshold c hsv in
  let mask := dilate mask kernel 2 in
  let mask := erode mask kernel 3 in
  bitwise_and image image mask.

(** [raw.shape[:2]] *)
Definition shape (f : Frame) : Z * Z :=
  (Z.of_nat (length f), Z.of_nat (length (List.hd [] f))).

(** Lines 143-166: the region of interest, its scale, the cropped view, and
    the boundary drawn on [raw]. *)
Definition roi (raw : nat) : M ((R * R) * (R * R) * View) :=
  fun h0 =>
  (let '(height, width) := shape (buffer h0 raw) in
   let height := IZR height in
   let width := IZR width in
   let upper_left : Pt := (0%Z, trunc (height / 3)) in
   let bottom_right : Pt := (trunc width, trunc height) in
   let horizontal := (upper_left.1, bottom_right.1) in
   let vertical := (upper_left.2, bottom_right.2) in
   let cropped_width := IZR (horizontal.2 - horizontal.1) in
   let cropped_height := IZR (vertical.2 - vertical.1) in
   let dimensions := (cropped_width, cropped_height) in
   let* width_scale := py_div (IZR ACTUAL_WIDTH) cropped_width in
   let* height_scale := py_div (IZR ACTUAL_HEIGHT) cropped_height in
   let scale := (width_scale, height_scale) in
   let image := mkView raw vertical horizontal in
   let* _ := draw_on_array raw
               (fun f => rectangle f upper_left bottom_right (0, 0, 0)%Z 2) in
   ret (dimensions, scale, image)) h0.

(** Lines 178-183: four passes of the median blur. *)
Definition denoise (image : Frame) : Frame :=
  Nat.iter 4 (fun image => medianBlur image 5) image.

(** [process_image], lines 140-232.  [raw] is the caller's array.  The
    window calls ([namedWindow], [imshow], [waitKey]) and the two rotated
    copies made only to be shown are left out: they return nothing to the
    pipeline. *)
Definition process_image (raw : nat)
  : M (list (list DetectedObject) * Frame) :=
  let* r := roi raw in
  let dimensions := r.1.1 in
  let scale := r.1.2 in
  let raw_cropped := r.2 in
  let* image := read_view raw_cropped in
  let image := denoise image in
  let hsv := cvtColor image COLOR_BGR2HSV in
  let kernel := getStructuringElement (11, 11)%Z in
  let res_r := masked Red image hsv kernel in
  let res_b := masked Blue image hsv kernel in
  let res_g := masked Green image hsv kernel in
  let res_y := masked Yellow image hsv kernel in
  let* (cubes, display) := detect res_g dimensions scale raw_cropped in
  let* (cuboids, display) := detect res_y dimensions scale display in
  let* (long_cuboids, display) := detect res_r dimensions scale display in
  let combined := uint8_add (uint8_add res_r res_b) res_y in
  ret ([cubes; cuboids; long_cuboids], combined).

End Pipeline.

(** ** Definitions used to state the properties *)

(** A value with at most two decimals. *)
Definition centi (x : R) : Prop := exists k : Z, x = IZR k / 100.

(** Two boxes of 10 by 5 pixels: the first edge of [box_east] runs along the
    positive x axis, that of [box_west] along the negative one. *)
Definition box_east : BoxPoints :=
  mkBox (0, 0)%Z (10, 0)%Z (10, 5)%Z (0, 5)%Z.
Definition box_west : BoxPoints :=
  mkBox (10, 0)%Z (0, 0)%Z (0, 5)%Z (10, 5)%Z.

(** The pixel centroid of a box, from its moments. *)
Definition centroid (b : BoxPoints) : R * R :=
  let mo := moments (box_list b) in (m10 mo / m00 mo, m01 mo / m00 mo).

(** The object [pose] builds when its divisions go through. *)
Definition pose_value (dimensions scale : R * R) (b : BoxPoints)
  : DetectedObject :=
  mkObject (- py_round2 (((centroid b).1 - dimensions.1 / 2) * scale.1),
            py_round2 (((centroid b).2 - dimensions.2 / 2) * scale.2),
            6.5)
           (0, 0, py_round2 (get_angle b)).

(** The box fitted to a contour, line 98-99. *)
Definition box_of {cv : OpenCV} (i : Contour) : BoxPoints :=
  intp_box (boxPoints (minAreaRect i)).

(** A contour that passes the area filter has a box with a non-zero m00. *)
Definition well_formed {cv : OpenCV} (i : Contour) : Prop :=
  passes_area_filter i = true -> m00 (moments (box_list (box_of i))) <> 0.

(** The contours [detect] finds in an image, lines 87-95. *)
Definition contours_of {cv : OpenCV} (image : Frame) : list Contour :=
  findContours (Canny (cvtColor image COLOR_HSV2BGR_FULL) 10 80).

(** The overlays of a list of boxes, drawn one after the other. *)
Definition overlay {cv : OpenCV} (display : View) (boxes : list BoxPoints)
    (h : gmap nat Frame) : gmap nat Frame :=
  foldl (fun h b =>
           (draw_on_view display
              (fun d => drawContours d [b] 0 (255, 255, 0)%Z 2) h).2)
        h boxes.

(** A box of 40 by 30 pixels in the region of interest of a 640 by 400
    frame (640 by 267 after the crop). *)
Definition box_wide : BoxPoints :=
  mkBox (0, 0)%Z (40, 0)%Z (40, 30)%Z (0, 30)%Z.
Definition dimensions_640 : R * R := (640, 267).
Definition scale_640 : R * R := (43 / 640, 20 / 267).

(** ** A stand-in for OpenCV

    An instance of the interface on which the pipeline can be run on small
    frames.  Blur, colour conversion and morphology leave the pixels as they
    are; the edge map is set where the image is not black; the contours
    found in an edge map with a set pixel are the ones given in [found];
    the area of a contour is its polygon area (the Green formula of
    [cv2.contourArea]); the rectangle fitted to a contour is given by
    [box]; the drawing routines colour the boundary of the rectangle and the
    corners of the boxes. *)

Definition polygon_area (c : Contour) : R :=
  IZR (Z.abs (contour_sums c).1.1) / 2.

Definition rect_contour (x0 y0 x1 y1 : Z) : Contour :=
  [(x0, y0); (x1, y0); (x1, y1); (x0, y1)].

Definition corners_of (c : Contour) : Corners :=
  match c with
  | p :: q :: r :: s :: _ => (to_float p, to_float q, to_float r, to_float s)
  | _ => ((0, 0), (0, 0), (0, 0), (0, 0))
  end.

Definition paint_outline (f : Frame) (p q : Pt) (color : Pixel) : Frame :=
  imap (fun j row =>
          imap (fun i px =>
                  let x := Z.of_nat i in
                  let y := Z.of_nat j in
                  if ((p.1 <=? x) && (x <=? q.1) && (p.2 <=? y) && (y <=? q.2)
                      && ((x =? p.1) || (x =? q.1) || (y =? p.2) || (y =? q.2)))%Z
                  then color else px) row) f.

Definition paint_corners (f : Frame) (boxes : list BoxPoints) (color : Pixel)
  : Frame :=
  imap (fun j row =>
          imap (fun i px =>
                  if existsb
                       (fun b =>
                          existsb (fun p : Pt =>
                                     ((p.1 =? Z.of_nat i)
                                      && (p.2 =? Z.of_nat j))%Z)
                                  (box_list b)) boxes
                  then color else px) row) f.

Definition any_set (m : Mask) : bool :=
  existsb (existsb (fun k => negb (k =? 0)%Z)) m.

Definition is_black (p : Pixel) : bool :=
  let '(p0, p1, p2) := p in ((p0 =? 0) && (p1 =? 0) && (p2 =? 0))%Z.

Definition scripted (found : list Contour) (box : Contour -> Corners)
  : OpenCV :=
  {| RotatedRect := Contour;
     rectangle f p q color _ := paint_outline f p q color;
     medianBlur f _ := f;
     cvtColor f _ := f;
     getStructuringElement _ := [];
     dilate m _ _ := m;
     erode m _ _ := m;
     Canny f _ _ := map (map (fun p => if is_black p then 0%Z else 255%Z)) f;
     findContours m := if any_set m then found else [];
     contourArea := polygon_area;
     minAreaRect c := c;
     boxPoints := box;
     drawContours f boxes _ color _ := paint_corners f boxes color |}.

(** Rectangular contours of 40 by 30, 50 by 40 and 40 by 20 pixels. *)
Definition contour_a : Contour := rect_contour 0 0 40 30.
Definition contour_b : Contour := rect_contour 100 50 150 90.
Definition contour_800 : Contour := rect_contour 0 0 40 20.

(** Four corners on one line. *)
Definition flat_corners : Corners := ((0, 0), (10, 0), (20, 0), (30, 0)).

(** Each contour is fitted by its own corners. *)
Definition cv_plain (found : list Contour) : OpenCV :=
  scripted found corners_of.

(** [contour_a] is fitted by a rectangle with no area. *)
Definition cv_flat : OpenCV :=
  scripted [contour_a; contour_b]
           (fun c => if decide (c = contour_a) then flat_corners
                     else corners_of c).

(** A pixel inside the blue range only, and frames made of it. *)
Definition blue_pixel : Pixel := (140, 90, 100)%Z.
Definition blue_image : Frame := [[blue_pixel]].
Definition blue_frame : Frame := replicate 3 (replicate 3 blue_pixel).

(** *** The values [process_image] computes from the frame [f] it is given *)

Section Stages.
Context {cv : OpenCV}.
Variable f : Frame.

Definition frame_rows : Z := Z.of_nat (length f).
Definition frame_cols : Z := Z.of_nat (length (List.hd [] f)).

Definition roi_rows : Z * Z := ((frame_rows / 3)%Z, frame_rows).
Definition roi_cols : Z * Z := (0%Z, frame_cols).
Definition roi_dimensions : R * R :=
  (IZR frame_cols, IZR (frame_rows - frame_rows / 3)).
Definition roi_scale : R * R :=
  (IZR ACTUAL_WIDTH / IZR frame_cols,
   IZR ACTUAL_HEIGHT / IZR (frame_rows - frame_rows / 3)).

(** The frame with the boundary of the region drawn on it, line 166. *)
Definition boundary : Frame :=
  rectangle f (0, frame_rows / 3)%Z (frame_cols, frame_rows) (0, 0, 0)%Z 2.

(** The denoised region, read through the view after line 166. *)
Definition working_image : Frame :=
  denoise (crop boundary roi_rows roi_cols).

(** The masked image of a colour: [res_r], [res_b], [res_g], [res_y]. *)
Definition class_image (c : ColorClass) : Frame :=
  masked c working_image (cvtColor working_image COLOR_BGR2HSV)
         (getStructuringElement (11, 11)%Z).

Definition combined : Frame :=
  uint8_add (uint8_add (class_image Red) (class_image Blue))
            (class_image Yellow).
End Stages.

Definition roi_view (raw : nat) (f : Frame) : View :=
  mkView raw (roi_rows f) (roi_cols f).

(** *** Two runs on arrays with the same pixels *)

Section Agreement.
Variables raw1 raw2 : nat.

(** The two heaps hold the same pixels for the two arrays. *)
Definition same_frame (h1 h2 : gmap nat Frame) : Prop :=
  buffer h1 raw1 = buffer h2 raw2.

(** Two views of the same window, one on each array. *)
Definition same_window (v1 v2 : View) : Prop :=
  v_base v1 = raw1 /\ v_base v2 = raw2
  /\ v_rows v1 = v_rows v2 /\ v_cols v1 = v_cols v2.

Definition same_detection (r1 r2 : list DetectedObject * View) : Prop :=
  r1.1 = r2.1 /\ same_window r1.2 r2.2.

Definition same_roi (r1 r2 : (R * R) * (R * R) * View) : Prop :=
  r1.1 = r2.1 /\ same_window r1.2 r2.2.

Definition same_result {A B} (P : A -> B -> Prop)
    (r1 : result A) (r2 : result B) : Prop :=
  match r1, r2 with
  | Ok a, Ok b => P a b
  | Raise e1, Raise e2 => e1 = e2
  | _, _ => False
  end.

(** Run from heaps with the same frame, the two computations end alike:
    related values or the same exception, and again the same frame. *)
Definition agree {A B} (P : A -> B -> Prop) (c1 : M A) (c2 : M B) : Prop :=
  forall h1 h2,
    same_frame h1 h2 ->
    same_result P (c1 h1).1 (c2 h2).1 /\ same_frame (c1 h1).2 (c2 h2).2.
End Agreement.

(** A heap where the caller's array, at address 0, is [blue_frame]. *)
Definition blue_heap : gmap nat Frame := {[ 0%nat := blue_frame ]}.

(** Another heap, where the same pixels are at address 5 and another array
    is at address 7. *)
Definition other_heap : gmap nat Frame :=
  {[ 5%nat := blue_frame; 7%nat := [[(1, 2, 3)%Z]] ]}.

(** A pixel inside the box from [lower] to [upper], bounds included, on each
    channel. *)
Definition within (p lower upper : Pixel) : Prop :=
  (lower.1.1 <= p.1.1 <= upper.1.1
   /\ lower.1.2 <= p.1.2 <= upper.1.2
   /\ lower.2 <= p.2 <= upper.2)%Z.

(** A box of 2 by 1 pixels, inside the region of [blue_frame]. *)
Definition box_small : BoxPoints :=
  mkBox (0, 0)%Z (2, 0)%Z (2, 1)%Z (0, 1)%Z.

(** The box reflected in the x axis. *)
Definition flip (p : Pt) : Pt := (p.1, (- p.2)%Z).
Definition mirror_box (b : BoxPoints) : BoxPoints :=
  mkBox (flip (pt0 b)) (flip (pt1 b)) (flip (pt2 b)) (flip (pt3 b)).

(** The pixels of a colour: inside its range, or one of its two ranges. *)
Definition in_class (c : ColorClass) (p : Pixel) : Prop :=
  match c with
  | Red => within p LOWER_RED_1 UPPER_RED_1 \/ within p LOWER_RED_2 UPPER_RED_2
  | Blue => within p LOWER_BLUE UPPER_BLUE
  | Green => within p LOWER_GREEN UPPER_GREEN
  | Yellow => within p LOWER_YELLOW UPPER_YELLOW
  end.

(** The entry of a mask at row [j] and column [i]. *)
Definition mask_at (m : Mask) (j i : nat) : option Z :=
  match m !! j with
  | Some row => row !! i
  | None => None
  end.

(** ** The node: camera set-up and the publishing loop

    [init_camera] and [main] of [image_processing.py], with [Camera.__init__]
    and [display_image] of [easy_baxter].  What the node does to the outside
    is kept as a log of events.  The settings a camera controller starts
    with, the image read from a file and the package directory are
    parameters. *)

(** Camera settings, lines 55-62. *)
Definition FPS : Z := 15.
Definition GAIN : Z := 40.
Definition EXPOSURE : Z := 80.
Definition RESOLUTION : Z * Z := (640, 400)%Z.
Definition WHITE_BALANCE_RED : Z := -1.
Definition WHITE_BALANCE_BLUE : Z := -1.
Definition WHITE_BALANCE_GREEN : Z := -1.

Inductive node_exn := ValueError | PipelineError (e : exn).

Inductive outcome (A : Type) :=
  | Done (a : A)
  | Failed (e : node_exn).
Arguments Done {A} a.
Arguments Failed {A} e.

(** [l.remove(x)]: the list without the first [x]; [ValueError] when [x] is
    not in it. *)
Fixpoint list_remove (x : string) (l : list string) : outcome (list string) :=
  match l with
  | [] => Failed ValueError
  | y :: l' =>
      if decide (y = x) then Done l'
      else match list_remove x l' with
           | Done r => Done (y :: r)
           | Failed e => Failed e
           end
  end.

Record CameraSettings := mkSettings {
  fps : Z;
  gain : Z;
  exposure : Z;
  resolution : Z * Z;
  white_balance_red : Z;
  white_balance_blue : Z;
  white_balance_green : Z
}.

(** An [easy_baxter.Camera]: the attributes set by [__init__] and the
    settings of the controller it extends. *)
Record Camera := mkCamera {
  camera : string;
  other_cameras : list string;
  publisher : string;
  settings : CameraSettings
}.

Definition with_settings (c : Camera) (s : CameraSettings) : Camera :=
  mkCamera (camera c) (other_cameras c) (publisher c) s.

Inductive Message :=
  | ImageMsg (f : Frame)
  | FloatsMsg (l : list R).

Inductive Event :=
  | InitNode (name : string)
  | Published (topic : string) (m : Message)
  | Slept (seconds : Z)
  | Opened (c : Camera).

Record World := mkWorld { w_heap : gmap nat Frame; w_log : list Event }.

(** A computation of the node: it may fail, allocate and draw on arrays,
    and add events to the log. *)
Definition N (A : Type) : Type := World -> outcome A * World.

Definition nret {A} (a : A) : N A := fun w => (Done a, w).
Definition nbind {A B} (c : N A) (k : A -> N B) : N B :=
  fun w => match c w with
           | (Done a, w') => k a w'
           | (Failed e, w') => (Failed e, w')
           end.

Notation "'let+' x ':=' c 'in' k" := (nbind c (fun x => k))
  (at level 10, x name, c at level 100, k at level 200).

Definition of_outcome {A} (o : outcome A) : N A := fun w => (o, w).

Definition emit (e : Event) : N unit :=
  fun w => (Done tt, mkWorld (w_heap w) (w_log w ++ [e])).

(** A new array holding [f], at an address not in use. *)
Definition new_array (f : Frame) : N nat :=
  fun w =>
    let a := fresh (dom (w_heap w)) in
    (Done a, mkWorld (<[a := f]> (w_heap w)) (w_log w)).

(** A computation of the pipeline run inside the node: its exception
    becomes the node's. *)
Definition run_pipeline {A} (c : M A) : N A :=
  fun w => match c (w_heap w) with
           | (Ok a, h) => (Done a, mkWorld h (w_log w))
           | (Raise e, h) => (Failed (PipelineError e), mkWorld h (w_log w))
           end.

(** In Python 2 a tuple compares greater than any integer. *)
Definition tuple_gt_int (t : Z * Z) (n : Z) : bool := true.

(** Lines 240-253 of [init_camera]: each setting whose configured value is
    greater than -1 is written to the camera, in this order. *)
Definition configure (s : CameraSettings) : CameraSettings :=
  let s := if (-1 <? FPS)%Z
           then mkSettings FPS (gain s) (exposure s) (resolution s)
                  (white_balance_red s) (white_balance_blue s)
                  (white_balance_green s)
           else s in
  let s := if (-1 <? GAIN)%Z
           then mkSettings (fps s) GAIN (exposure s) (resolution s)
                  (white_balance_red s) (white_balance_blue s)
                  (white_balance_green s)
           else s in
  let s := if (-1 <? EXPOSURE)%Z
           then mkSettings (fps s) (gain s) EXPOSURE (resolution s)
                  (white_balance_red s) (white_balance_blue s)
                  (white_balance_green s)
           else s in
  let s := if tuple_gt_int RESOLUTION (-1)
           then mkSettings (fps s) (gain s) (exposure s) RESOLUTION
                  (white_balance_red s) (white_balance_blue s)
                  (white_balance_green s)
           else s in
  let s := if (-1 <? WHITE_BALANCE_RED)%Z
           then mkSettings (fps s) (gain s) (exposure s) (resolution s)
                  WHITE_BALANCE_RED (white_balance_blue s)
                  (white_balance_green s)
           else s in
  let s := if (-1 <? WHITE_BALANCE_BLUE)%Z
           then mkSettings (fps s) (gain s) (exposure s) (resolution s)
                  (white_balance_red s) WHITE_BALANCE_BLUE
                  (white_balance_green s)
           else s in
  let s := if (-1 <? WHITE_BALANCE_GREEN)%Z
           then mkSettings (fps s) (gain s) (exposure s) (resolution s)
                  (white_balance_red s) (white_balance_blue s)
                  WHITE_BALANCE_GREEN
           else s in
  s.

(** [np.array(l, dtype=np.float32).flatten()] of a detection list: the six
    numbers of each object, one object after the other. *)
Definition flatten (l : list DetectedObject) : list R :=
  concat (map (fun o =>
                 let '(x, y, z) := position o in
                 let '(roll, pitch, yaw) := orientation o in
                 [x; y; z; roll; pitch; yaw]) l).

Section Node.
Context {cv : OpenCV}.
Variable controller : string -> CameraSettings.
Variable imread : string -> Frame.
Variable PKG_DIR : string.

(** [Camera.__init__], lines 60-67 of [easy_baxter/__init__.py]. *)
Definition Camera_init (camera : string) : outcome Camera :=
  let all_cameras :=
    ["left_hand_camera"; "right_hand_camera"; "head_camera"]%string in
  match list_remove camera all_cameras with
  | Failed e => Failed e
  | Done all_cameras =>
      Done (mkCamera camera all_cameras
                     ("/cameras/" +:+ camera +:+ "/image")
                     (controller camera))
  end.

(** [display_image], lines 43-53 of [easy_baxter/__init__.py]. *)
Definition display_image (image_path : string) : N unit :=
  let img := imread image_path in
  let msg := ImageMsg img in
  let+ _ := emit (Published "/robot/xdisplay" msg) in
  emit (Slept 1).

(** [init_camera], lines 235-258; the settings are those of [configure],
    lines 240-253. *)
Definition init_camera (camera_name : string) : N unit :=
  let+ camera := of_outcome (Camera_init camera_name) in
  let camera := with_settings camera (configure (settings camera)) in
  let+ _ := emit (Opened camera) in
  emit (Slept 1).

(** The body of the loop of [main], lines 287-300, for one incoming image
    message.  [imgmsg_to_cv2] gives a new array; [arrangement[k]] is the
    k-th list of the three that [process_image] returns. *)
Definition main_step (publisher camera : string) (msg : Frame) : N unit :=
  let+ raw := new_array msg in
  let+ r := run_pipeline (process_image raw) in
  let arrangement := r.1 in
  let processed := r.2 in
  let img_msg := ImageMsg processed in
  let cubes_msg := FloatsMsg (flatten (default [] (arrangement !! 0%nat))) in
  let cylinders_msg :=
    FloatsMsg (flatten (default [] (arrangement !! 1%nat))) in
  let pluses_msg := FloatsMsg (flatten (default [] (arrangement !! 2%nat))) in
  let+ _ := emit (Published ("/cameras/" +:+ camera +:+ "/image/processed")
                            img_msg) in
  let+ _ := emit (Published (publisher +:+ "/cubes") cubes_msg) in
  let+ _ := emit (Published (publisher +:+ "/cylinders") cylinders_msg) in
  emit (Published (publisher +:+ "/pluses") pluses_msg).

(** The loop of lines 286-300 over the image messages received before the
    node is shut down. *)
Fixpoint main_loop (publisher camera : string) (incoming : list Frame)
  : N unit :=
  match incoming with
  | [] => nret tt
  | msg :: incoming' =>
      let+ _ := main_step publisher camera msg in
      main_loop publisher camera incoming'
  end.

(** [main], lines 261-300. *)
Definition main (node publisher camera : string) (incoming : list Frame)
  : N unit :=
  let+ _ := emit (InitNode node) in
  let+ _ := display_image (PKG_DIR +:+ "/smiley.jpg") in
  let+ _ := init_camera camera in
  main_loop publisher camera incoming.

End Node.

(** The pixel of a frame at row [j] and column [i]. *)
Definition pixel_at (f : Frame) (j i : nat) : option Pixel :=
  match f !! j with
  | Some row => row !! i
  | None => None
  end.

(** The names [Camera.__init__] knows. *)
Definition known_cameras : list string :=
  ["left_hand_camera"; "right_hand_camera"; "head_camera"]%string.

(** A message of numbers holds six numbers per object. *)
Definition in_sixes (e : Event) : Prop :=
  match e with
  | Published _ (FloatsMsg l) => Nat.divide 6 (length l)
  | _ => True
  end.

(** The four messages published for one frame. *)
Definition frame_messages (publisher camera : string)
    (cubes cuboids long_cuboids : list DetectedObject) (processed : Frame)
  : list Event :=
  [Published ("/cameras/" +:+ camera +:+ "/image/processed")
             (ImageMsg processed);
   Published (publisher +:+ "/cubes") (FloatsMsg (flatten cubes));
   Published (publisher +:+ "/cylinders") (FloatsMsg (flatten cuboids));
   Published (publisher +:+ "/pluses") (FloatsMsg (flatten long_cuboids))].

(** * Properties *)

(** ** Numbers *)

Lemma Int_part_unique (x : R) (k : Z) :
  IZR k <= x < IZR k + 1 -> Int_part x = k.
Proof.
  intros [Hlo Hhi]. symmetry. apply Int_part_spec. lra.
Qed.

Lemma Int_part_bounds (x : R) :
  IZR (Int_part x) <= x < IZR (Int_part x) + 1.
Proof.
  destruct (base_Int_part x) as [Hlo Hhi]. lra.
Qed.

Lemma Int_part_IZR (z : Z) : Int_part (IZR z) = z.
Proof. apply Int_part_unique. lra. Qed.

Lemma trunc_IZR (z : Z) : trunc (IZR z) = z.
Proof.
  unfold trunc. destruct (Rle_dec 0 (IZR z)) as [_|_].
  - apply Int_part_IZR.
  - rewrite <- opp_IZR, Int_part_IZR. lia.
Qed.

Lemma trunc_third (n : Z) : (0 <= n)%Z -> trunc (IZR n / 3) = (n / 3)%Z.
Proof.
  intros Hn.
  assert (Hdiv : (n = 3 * (n / 3) + n mod 3)%Z) by (apply Z.div_mod; lia).
  assert (Hmod : (0 <= n mod 3 < 3)%Z) by (apply Z.mod_pos_bound; lia).
  assert (Hq : (0 <= n / 3)%Z) by (apply Z.div_pos; lia).
  set (q := (n / 3)%Z) in *. set (r := (n mod 3)%Z) in *.
  assert (HR : IZR n = 3 * IZR q + IZR r).
  { rewrite Hdiv at 1. rewrite plus_IZR, mult_IZR. reflexivity. }
  assert (Hr0 : 0 <= IZR r) by (apply IZR_le; lia).
  assert (Hr3 : IZR r < 3) by (apply IZR_lt; lia).
  assert (Hq0 : 0 <= IZR q) by (apply IZR_le; lia).
  unfold trunc. destruct (Rle_dec 0 (IZR n / 3)) as [_|Hneg].
  - apply Int_part_unique. lra.
  - exfalso. apply Hneg. lra.
Qed.

Lemma centi_opp (x : R) : centi x -> centi (- x).
Proof.
  intros [k ->]. exists (- k)%Z. rewrite opp_IZR. lra.
Qed.

Lemma py_round2_centi (x : R) : centi (py_round2 x).
Proof.
  unfold py_round2. destruct (Rle_dec 0 x) as [_|_].
  - eexists. reflexivity.
  - apply centi_opp. eexists. reflexivity.
Qed.

Lemma py_round2_near (x : R) : Rabs (py_round2 x - x) <= / 200.
Proof.
  unfold py_round2. destruct (Rle_dec 0 x) as [_|_].
  - pose proof (Int_part_bounds (x * 100 + / 2)) as Hb.
    apply Rabs_le. lra.
  - pose proof (Int_part_bounds (- x * 100 + / 2)) as Hb.
    apply Rabs_le. lra.
Qed.

(** ** Norms and the choice of the edge *)

Lemma sq_norm_nonneg (p : Pt) : (0 <= sq_norm p)%Z.
Proof. unfold sq_norm. nia. Qed.

Lemma sq_norm_zero (p : Pt) : sq_norm p = 0%Z <-> p = (0, 0)%Z.
Proof.
  destruct p as [x y]. unfold sq_norm. simpl. split.
  - intros H. f_equal; nia.
  - intros [= -> ->]. reflexivity.
Qed.

Lemma linalg_norm_float (p : Pt) :
  linalg_norm (to_float p) = sqrt (IZR (sq_norm p)).
Proof.
  unfold linalg_norm, to_float, sq_norm. simpl.
  rewrite plus_IZR, !mult_IZR. reflexivity.
Qed.

Lemma linalg_norm_pos (p : Pt) :
  p <> (0, 0)%Z -> 0 < linalg_norm (to_float p).
Proof.
  intros Hp. rewrite linalg_norm_float. apply sqrt_lt_R0.
  apply IZR_lt. pose proof (sq_norm_nonneg p).
  destruct (Z.eq_dec (sq_norm p) 0) as [E|E]; [|lia].
  apply sq_norm_zero in E. contradiction.
Qed.

Lemma linalg_norm_reference : linalg_norm reference = 1.
Proof.
  unfold linalg_norm, reference. simpl.
  replace (1 * 1 + 0 * 0) with 1 by lra. apply sqrt_1.
Qed.

(** The comparison of the two norms is the comparison of the squared
    integer norms. *)
Lemma used_edge_longer (b : BoxPoints) : used_edge b = longer_edge b.
Proof.
  unfold used_edge, longer_edge. rewrite !linalg_norm_float.
  pose proof (sq_norm_nonneg (edge1 b)) as H1.
  pose proof (sq_norm_nonneg (edge2 b)) as H2.
  destruct (Rlt_dec _ _) as [Hlt|Hge]; destruct (Z.ltb_spec (sq_norm (edge1 b)) (sq_norm (edge2 b))) as [Hz|Hz];
    try reflexivity.
  - exfalso. apply IZR_le in Hz.
    apply sqrt_le_1_alt in Hz. lra.
  - exfalso. apply Hge. apply sqrt_lt_1; try (apply IZR_le; lia).
    apply IZR_lt. exact Hz.
Qed.

Lemma longer_edge_nonzero (b : BoxPoints) :
  edge1 b <> (0, 0)%Z \/ edge2 b <> (0, 0)%Z -> longer_edge b <> (0, 0)%Z.
Proof.
  intros H E. unfold longer_edge in E.
  pose proof (sq_norm_nonneg (edge1 b)) as H1.
  pose proof (sq_norm_nonneg (edge2 b)) as H2.
  destruct (Z.ltb_spec (sq_norm (edge1 b)) (sq_norm (edge2 b))) as [Hz|Hz].
  - apply sq_norm_zero in E. lia.
  - pose proof E as E'. apply sq_norm_zero in E'.
    assert (E2 : sq_norm (edge2 b) = 0%Z) by lia.
    apply sq_norm_zero in E2. destruct H as [H|H]; contradiction.
Qed.

(** ** The yaw *)

Lemma py_mod_small (y m : R) : 0 <= y < m -> py_mod y m = y.
Proof.
  intros [Hy Hm]. unfold py_mod.
  assert (Hq : y / m * m = y) by (field; lra).
  rewrite (Int_part_unique (y / m) 0).
  - lra.
  - split.
    + apply Rmult_le_reg_r with m; lra.
    + apply Rmult_lt_reg_r with m; lra.
Qed.

Lemma py_mod_self (m : R) : 0 < m -> py_mod m m = 0.
Proof.
  intros Hm. unfold py_mod.
  replace (m / m) with 1 by (field; lra).
  rewrite (Int_part_IZR 1). lra.
Qed.

(** The argument of [arccos] in [get_angle] is the cosine of the direction
    of the edge: with the reference (1, 0) the source's association of the
    operators gives [x / |e|]. *)
Lemma get_angle_argument (e : Pt) :
  linalg_norm reference / linalg_norm (to_float e) / reference.1 * IZR e.1
  + reference.2 * IZR e.2
  = IZR e.1 / linalg_norm (to_float e).
Proof.
  rewrite linalg_norm_reference. unfold reference. simpl.
  unfold Rdiv. rewrite Rinv_1. ring.
Qed.

Lemma angle_between_reference (e : Pt) :
  angle_between (to_float e) reference
  = acos (IZR e.1 / linalg_norm (to_float e)).
Proof.
  unfold angle_between, dot. rewrite linalg_norm_reference.
  unfold reference, to_float. simpl.
  rewrite !Rmult_1_r, Rmult_0_r, Rplus_0_r. reflexivity.
Qed.

Lemma norm_sqr (e : Pt) :
  linalg_norm (to_float e) * linalg_norm (to_float e)
  = IZR e.1 * IZR e.1 + IZR e.2 * IZR e.2.
Proof.
  unfold linalg_norm, to_float. simpl. apply sqrt_sqrt. nra.
Qed.

Lemma cosine_bounds (e : Pt) :
  e <> (0, 0)%Z ->
  -1 <= IZR e.1 / linalg_norm (to_float e) <= 1.
Proof.
  intros He. pose proof (linalg_norm_pos e He) as Hn.
  pose proof (norm_sqr e) as Hs.
  set (n := linalg_norm (to_float e)) in *.
  assert (Hq : IZR e.1 / n * n = IZR e.1) by (field; lra).
  split.
  - apply Rmult_le_reg_r with n; [lra|]. rewrite Hq. nra.
  - apply Rmult_le_reg_r with n; [lra|]. rewrite Hq. nra.
Qed.

Lemma cosine_minus_one (e : Pt) :
  e <> (0, 0)%Z ->
  IZR e.1 / linalg_norm (to_float e) = -1 <-> (e.2 = 0 /\ e.1 < 0)%Z.
Proof.
  intros He. pose proof (linalg_norm_pos e He) as Hn.
  pose proof (norm_sqr e) as Hs.
  set (n := linalg_norm (to_float e)) in *.
  assert (Hq : IZR e.1 / n * n = IZR e.1) by (field; lra).
  split.
  - intros H. rewrite H in Hq.
    assert (H2 : IZR e.2 * IZR e.2 = 0) by nra.
    assert (H2' : IZR e.2 = 0) by nra.
    split.
    + apply eq_IZR. exact H2'.
    + apply lt_IZR. lra.
  - intros [H2 H1]. apply IZR_lt in H1. rewrite H2 in Hs.
    assert (Hn' : n = - IZR e.1) by nra.
    rewrite Hn'. field. lra.
Qed.

Lemma acos_lt_PI (x : R) : -1 < x -> acos x < PI.
Proof.
  intros Hx. destruct (Rlt_dec x 1) as [H1|H1].
  - apply acos_bound_lt. lra.
  - unfold acos. destruct (Rle_dec x (-1)); [lra|].
    destruct (Rle_dec 1 x); [|lra]. apply PI_RGT_0.
Qed.

Lemma acos_minus_one : acos (-1) = PI.
Proof.
  replace (-1) with (- (1)) by lra. rewrite acos_opp, acos_1. lra.
Qed.

Lemma get_angle_unfold (b : BoxPoints) :
  get_angle b
  = py_mod (acos (IZR (longer_edge b).1
                  / linalg_norm (to_float (longer_edge b))) + PI)
           (2 * PI) - PI.
Proof.
  unfold get_angle. cbv zeta. rewrite get_angle_argument, used_edge_longer.
  reflexivity.
Qed.

Lemma get_angle_generic (b : BoxPoints) :
  longer_edge b <> (0, 0)%Z ->
  ~ ((longer_edge b).2 = 0 /\ (longer_edge b).1 < 0)%Z ->
  get_angle b = angle_between (to_float (longer_edge b)) reference
  /\ 0 <= get_angle b < PI.
Proof.
  intros He Hw. rewrite get_angle_unfold, angle_between_reference.
  set (x := IZR (longer_edge b).1 / linalg_norm (to_float (longer_edge b))).
  assert (Hx : -1 < x).
  { pose proof (cosine_bounds _ He) as [Hlo _]. fold x in Hlo.
    destruct (Req_dec x (-1)) as [E|E]; [|lra].
    apply cosine_minus_one in E; [contradiction|exact He]. }
  pose proof (acos_lt_PI x Hx) as Hlt.
  pose proof (acos_bound x) as [H0 _].
  rewrite py_mod_small by lra. split; lra.
Qed.

Lemma get_angle_west (b : BoxPoints) :
  longer_edge b <> (0, 0)%Z ->
  ((longer_edge b).2 = 0 /\ (longer_edge b).1 < 0)%Z ->
  angle_between (to_float (longer_edge b)) reference = PI
  /\ get_angle b = - PI.
Proof.
  intros He Hw. rewrite get_angle_unfold, angle_between_reference.
  apply (cosine_minus_one _ He) in Hw. rewrite Hw, acos_minus_one.
  split; [reflexivity|].
  replace (PI + PI) with (2 * PI) by lra.
  rewrite py_mod_self; [lra|]. pose proof PI_RGT_0. lra.
Qed.

(** C1 (amended). For a box whose first three corners do not coincide and
    whose longer adjacent edge (the first when equal) does not point along
    the negative x axis, the yaw of [get_angle] is the angle between that
    edge and the axis (1, 0); it lies between 0 (included) and pi
    (excluded), so inside the interval from -pi (excluded) to pi
    (included).  Nothing is stated for an edge that points along the
    negative x axis. *)
Theorem get_angle_long_edge (b : BoxPoints) :
  edge1 b <> (0, 0)%Z \/ edge2 b <> (0, 0)%Z ->
  let e := longer_edge b in
  ~ (e.2 = 0 /\ e.1 < 0)%Z ->
  get_angle b = angle_between (to_float e) reference
  /\ 0 <= get_angle b < PI
  /\ - PI < get_angle b <= PI.
Proof.
  intros Hb e Hw. pose proof (longer_edge_nonzero b Hb) as He.
  pose proof PI_RGT_0 as Hpi.
  destruct (get_angle_generic b He Hw) as [Ha Hr].
  split; [exact Ha|]. split; [exact Hr|]. lra.
Qed.

Lemma get_angle_long_edge_witness :
  let b := box_east in
  (edge1 b <> (0, 0)%Z \/ edge2 b <> (0, 0)%Z)
  /\ (let e := longer_edge b in ~ (e.2 = 0 /\ e.1 < 0)%Z)
  /\ (let e := longer_edge b in
      get_angle b = angle_between (to_float e) reference
      /\ 0 <= get_angle b < PI
      /\ - PI < get_angle b <= PI).
Proof.
  assert (H : edge1 box_east <> (0, 0)%Z \/ edge2 box_east <> (0, 0)%Z)
    by (left; vm_compute; discriminate).
  assert (Hw : ~ ((longer_edge box_east).2 = 0
                  /\ (longer_edge box_east).1 < 0)%Z)
    by (vm_compute; intros [_ Hlt]; discriminate Hlt).
  split; [exact H|]. split; [exact Hw|].
  exact (get_angle_long_edge box_east H Hw).
Defined.

(** C1 as stated fails on the box [box_west], whose longer edge, of length
    10, points along the negative x axis: the yaw is -pi, which is neither
    the angle between the edge and (1, 0), that is pi, nor in the interval
    open at -pi. *)
Lemma get_angle_west_edge :
  ~ (get_angle box_west
     = angle_between (to_float (longer_edge box_west)) reference
     /\ - PI < get_angle box_west <= PI).
Proof.
  assert (He : longer_edge box_west <> (0, 0)%Z) by (vm_compute; discriminate).
  assert (Hw : ((longer_edge box_west).2 = 0
                /\ (longer_edge box_west).1 < 0)%Z) by (vm_compute; auto).
  destruct (get_angle_west box_west He Hw) as [_ Hg].
  rewrite Hg. intros [_ [Hlt _]]. lra.
Qed.

(** ** Moments and the pose of one box *)

Lemma moments_m00_zero (l : list Pt) :
  m00 (moments l) = 0 <-> (contour_sums l).1.1 = 0%Z.
Proof.
  unfold moments. destruct (contour_sums l) as [[a00 a10] a01]. simpl.
  destruct (Z.eqb_spec a00 0) as [E|E]; simpl.
  - tauto.
  - destruct (Z.ltb_spec 0 a00) as [Hp|Hp]; simpl.
    + split; [|lia]. intros H. apply IZR_lt in Hp. lra.
    + split; [|lia]. intros H.
      assert (Hn : (a00 < 0)%Z) by lia. apply IZR_lt in Hn. lra.
Qed.


Lemma py_div_ok (x y : R) (h : gmap nat Frame) :
  y <> 0 -> py_div x y h = (Ok (x / y), h).
Proof.
  intros Hy. unfold py_div. destruct (Req_dec_T y 0); [contradiction|].
  reflexivity.
Qed.

Lemma py_div_zero (x y : R) (h : gmap nat Frame) :
  y = 0 -> py_div x y h = (Raise ZeroDivisionError, h).
Proof.
  intros Hy. unfold py_div. destruct (Req_dec_T y 0); [|contradiction].
  reflexivity.
Qed.

Lemma pose_ok (dimensions scale : R * R) (b : BoxPoints) (h : gmap nat Frame) :
  m00 (moments (box_list b)) <> 0 ->
  pose dimensions scale b h = (Ok (pose_value dimensions scale b), h).
Proof.
  intros Hm. unfold pose, bind. rewrite !py_div_ok by exact Hm.
  reflexivity.
Qed.

Lemma pose_zero (dimensions scale : R * R) (b : BoxPoints) (h : gmap nat Frame) :
  m00 (moments (box_list b)) = 0 ->
  pose dimensions scale b h = (Raise ZeroDivisionError, h).
Proof.
  intros Hm. unfold pose, bind. rewrite py_div_zero by exact Hm.
  reflexivity.
Qed.

(** C3 (amended). For a rectangle with pixel centroid (cx, cy), that is with
    non-zero m00, ROI dimensions (w, h) and scale factors (sx, sy), the
    reported position is x = -round2((cx - w/2) * sx),
    y = round2((cy - h/2) * sy) and z = 6.5, where round2 rounds to two
    decimals: x and y are within 0.005 of -((cx - w/2) * sx) and
    (cy - h/2) * sy. *)
Theorem pose_position (dimensions scale : R * R) (b : BoxPoints)
    (h : gmap nat Frame) :
  m00 (moments (box_list b)) <> 0 ->
  let x := ((centroid b).1 - dimensions.1 / 2) * scale.1 in
  let y := ((centroid b).2 - dimensions.2 / 2) * scale.2 in
  exists o,
    pose dimensions scale b h = (Ok o, h)
    /\ position o = (- py_round2 x, py_round2 y, 6.5)
    /\ Rabs ((position o).1.1 - - x) <= / 200
    /\ Rabs ((position o).1.2 - y) <= / 200.
Proof.
  intros Hm x y. exists (pose_value dimensions scale b).
  split; [apply pose_ok; exact Hm|].
  split; [reflexivity|].
  change (Rabs (- py_round2 x - - x) <= / 200
          /\ Rabs (py_round2 y - y) <= / 200).
  split.
  - replace (- py_round2 x - - x) with (- (py_round2 x - x)) by lra.
    rewrite Rabs_Ropp. apply py_round2_near.
  - apply py_round2_near.
Qed.

Lemma box_wide_sums :
  contour_sums (box_list box_wide) = (2400, 144000, 108000)%Z.
Proof. vm_compute. reflexivity. Qed.

Lemma box_wide_m00 : m00 (moments (box_list box_wide)) <> 0.
Proof.
  intros H. apply moments_m00_zero in H. rewrite box_wide_sums in H.
  discriminate H.
Qed.

Lemma box_wide_centroid : centroid box_wide = (20, 15).
Proof.
  unfold centroid, moments. rewrite box_wide_sums. simpl.
  f_equal; lra.
Qed.

Lemma pose_position_witness :
  m00 (moments (box_list box_wide)) <> 0
  /\ (let x := ((centroid box_wide).1 - dimensions_640.1 / 2) * scale_640.1 in
      let y := ((centroid box_wide).2 - dimensions_640.2 / 2) * scale_640.2 in
      exists o,
        pose dimensions_640 scale_640 box_wide ∅ = (Ok o, ∅)
        /\ position o = (- py_round2 x, py_round2 y, 6.5)
        /\ Rabs ((position o).1.1 - - x) <= / 200
        /\ Rabs ((position o).1.2 - y) <= / 200).
Proof.
  split; [exact box_wide_m00|].
  exact (pose_position dimensions_640 scale_640 box_wide ∅ box_wide_m00).
Defined.

(** C3 as stated fails where the product has more than two decimals: for the
    centroid (20, 15) in a 640 by 267 region scaled by 43/640, the claim
    gives x = 20.15625, and the code reports a value with two decimals. *)
Lemma pose_position_not_exact :
  exists o,
    pose dimensions_640 scale_640 box_wide ∅ = (Ok o, ∅)
    /\ position o
       <> (- (((centroid box_wide).1 - dimensions_640.1 / 2) * scale_640.1),
           ((centroid box_wide).2 - dimensions_640.2 / 2) * scale_640.2,
           6.5).
Proof.
  exists (pose_value dimensions_640 scale_640 box_wide).
  split; [apply pose_ok, box_wide_m00|].
  unfold pose_value. rewrite box_wide_centroid. simpl.
  intros E. injection E as Ex _.
  destruct (py_round2_centi ((20 - 640 / 2) * (43 / 640))) as [k Hk].
  rewrite Hk in Ex.
  assert (Hz : IZR (8 * k) = IZR (-16125)) by (rewrite mult_IZR; lra).
  apply eq_IZR in Hz. lia.
Qed.

(** ** The loop of [detect] *)

Lemma passes_area_filter_spec {cv : OpenCV} (i : Contour) :
  passes_area_filter i = true <-> contourArea i > 800.
Proof.
  unfold passes_area_filter. destruct (Rgt_dec (contourArea i) 800).
  - tauto.
  - split; [discriminate|contradiction].
Qed.

Lemma overlay_cons {cv : OpenCV} (display : View) (bs : list BoxPoints)
    (b : BoxPoints) (h : gmap nat Frame) :
  overlay display (b :: bs) h
  = overlay display bs
      (draw_on_view display
         (fun d => drawContours d [b] 0 (255, 255, 0)%Z 2) h).2.
Proof. reflexivity. Qed.

Section DetectLoop.
Context {cv : OpenCV}.
Variables (dimensions scale : R * R) (display : View).

Lemma detect_loop_ok (contours : list Contour) :
  Forall well_formed contours ->
  forall detected h,
    detect_loop dimensions scale display contours detected h
    = (Ok (detected
           ++ map (fun i => pose_value dimensions scale (box_of i))
                  (List.filter passes_area_filter contours)),
       overlay display
               (map box_of (List.filter passes_area_filter contours)) h).
Proof.
  induction 1 as [|i contours Hi _ IH]; intros detected h.
  - simpl. unfold ret. rewrite app_nil_r. reflexivity.
  - simpl. destruct (passes_area_filter i) eqn:Hp.
    + unfold bind. fold (box_of i).
      rewrite pose_ok by (apply Hi; exact Hp).
      simpl. rewrite IH, <- app_assoc. reflexivity.
    + apply IH.
Qed.

Lemma detect_loop_raise (pre post : list Contour) (i : Contour) :
  Forall well_formed pre ->
  passes_area_filter i = true ->
  m00 (moments (box_list (box_of i))) = 0 ->
  forall detected h,
    detect_loop dimensions scale display (pre ++ i :: post) detected h
    = (Raise ZeroDivisionError,
       overlay display (map box_of (List.filter passes_area_filter pre)) h).
Proof.
  intros Hpre Hp Hm. induction Hpre as [|j pre Hj _ IH]; intros detected h.
  - simpl. rewrite Hp. unfold bind. fold (box_of i).
    rewrite pose_zero by exact Hm. reflexivity.
  - simpl. destruct (passes_area_filter j) eqn:Hpj.
    + unfold bind. fold (box_of j).
      rewrite pose_ok by (apply Hj; exact Hpj).
      simpl. rewrite IH. reflexivity.
    + apply IH.
Qed.

Lemma detect_loop_inv (contours : list Contour) :
  forall detected h out h',
    detect_loop dimensions scale display contours detected h = (Ok out, h') ->
    Forall well_formed contours.
Proof.
  induction contours as [|i contours IH]; intros detected h out h' Hrun.
  - constructor.
  - simpl in Hrun. destruct (passes_area_filter i) eqn:Hp.
    + unfold bind in Hrun. fold (box_of i) in Hrun.
      destruct (Req_dec_T (m00 (moments (box_list (box_of i)))) 0) as [E|E].
      * rewrite pose_zero in Hrun by exact E. discriminate Hrun.
      * rewrite pose_ok in Hrun by exact E. simpl in Hrun.
        constructor; [intros _; exact E|]. eapply IH. exact Hrun.
    + constructor; [intros Hp'; rewrite Hp in Hp'; discriminate|].
      eapply IH. exact Hrun.
Qed.

End DetectLoop.

(** ** [detect] *)

Section Detect.
Context {cv : OpenCV}.
Variables (dimensions scale : R * R) (display : View).

Lemma detect_unfold (image : Frame) (h : gmap nat Frame) :
  detect image dimensions scale display h
  = match detect_loop dimensions scale display (contours_of image) [] h with
    | (Ok detected, h') => (Ok (detected, display), h')
    | (Raise e, h') => (Raise e, h')
    end.
Proof. reflexivity. Qed.

Lemma detect_ok (image : Frame) (h : gmap nat Frame) :
  Forall well_formed (contours_of image) ->
  detect image dimensions scale display h
  = (Ok (map (fun i => pose_value dimensions scale (box_of i))
             (List.filter passes_area_filter (contours_of image)),
         display),
     overlay display
             (map box_of (List.filter passes_area_filter (contours_of image)))
             h).
Proof.
  intros Hwf. rewrite detect_unfold, (detect_loop_ok _ _ _ _ Hwf).
  reflexivity.
Qed.

Lemma detect_inv (image : Frame) (h h' : gmap nat Frame)
    (detected : list DetectedObject) (d : View) :
  detect image dimensions scale display h = (Ok (detected, d), h') ->
  Forall well_formed (contours_of image).
Proof.
  rewrite detect_unfold.
  destruct (detect_loop dimensions scale display (contours_of image) [] h)
    as [[out|e] h1] eqn:Hrun; [|discriminate].
  intros _. eapply detect_loop_inv. exact Hrun.
Qed.

End Detect.

(** ** The stand-in on the example contours *)

Lemma passes_contour_a (found : list Contour) (box : Contour -> Corners) :
  passes_area_filter (cv := scripted found box) contour_a = true.
Proof.
  apply passes_area_filter_spec.
  change (polygon_area contour_a > 800). unfold polygon_area.
  assert (E : Z.abs (contour_sums contour_a).1.1 = 2400%Z)
    by (vm_compute; reflexivity).
  rewrite E. lra.
Qed.

Lemma box_of_contour_a (found : list Contour) :
  box_of (cv := cv_plain found) contour_a = box_wide.
Proof. unfold box_of. simpl. rewrite !trunc_IZR. reflexivity. Qed.

Lemma well_formed_contour_a (found : list Contour) :
  well_formed (cv := cv_plain found) contour_a.
Proof. intros _. rewrite box_of_contour_a. exact box_wide_m00. Qed.

Lemma box_of_flat :
  box_of (cv := cv_flat) contour_a
  = mkBox (0, 0)%Z (10, 0)%Z (20, 0)%Z (30, 0)%Z.
Proof.
  unfold box_of. simpl. rewrite !trunc_IZR. reflexivity.
Qed.

Lemma flat_m00 : m00 (moments (box_list (box_of (cv := cv_flat) contour_a))) = 0.
Proof.
  rewrite box_of_flat. apply moments_m00_zero. vm_compute. reflexivity.
Qed.

Lemma area_contour_800 (found : list Contour) (box : Contour -> Corners) :
  contourArea (OpenCV := scripted found box) contour_800 = 800.
Proof.
  change (polygon_area contour_800 = 800). unfold polygon_area.
  assert (E : Z.abs (contour_sums contour_800).1.1 = 1600%Z)
    by (vm_compute; reflexivity).
  rewrite E. lra.
Qed.

Lemma passes_contour_800 (found : list Contour) (box : Contour -> Corners) :
  passes_area_filter (cv := scripted found box) contour_800 = false.
Proof.
  destruct (passes_area_filter (cv := scripted found box) contour_800) eqn:E;
    [|reflexivity].
  apply passes_area_filter_spec in E. rewrite area_contour_800 in E. lra.
Qed.

(** ** Claims about [detect] *)

(** C2 (amended). [detect] has no guard on m00.  At the first contour that
    passes the area filter and whose rectangle has a zero m00, it raises
    [ZeroDivisionError]: no detection list is returned for the image, the
    objects found before are lost with it, and the remaining contours are
    not processed.  The overlays drawn before stay on the display. *)
Theorem detect_zero_moment {cv : OpenCV} (dimensions scale : R * R)
    (display : View) (image : Frame) (pre post : list Contour) (i : Contour)
    (h : gmap nat Frame) :
  contours_of image = pre ++ i :: post ->
  Forall well_formed pre ->
  passes_area_filter i = true ->
  m00 (moments (box_list (box_of i))) = 0 ->
  detect image dimensions scale display h
  = (Raise ZeroDivisionError,
     overlay display (map box_of (List.filter passes_area_filter pre)) h).
Proof.
  intros Hc Hpre Hp Hm.
  rewrite detect_unfold, Hc.
  rewrite (detect_loop_raise dimensions scale display pre post i Hpre Hp Hm).
  reflexivity.
Qed.

Lemma detect_zero_moment_witness :
  detect (cv := cv_flat) blue_image dimensions_640 scale_640
         (mkView 0 (0, 1)%Z (0, 1)%Z) ∅
  = (Raise ZeroDivisionError, ∅).
Proof.
  apply (detect_zero_moment (cv := cv_flat) dimensions_640 scale_640
           (mkView 0 (0, 1)%Z (0, 1)%Z) blue_image [] [contour_b] contour_a ∅).
  - reflexivity.
  - constructor.
  - apply passes_contour_a.
  - exact flat_m00.
Defined.

(** C2 as stated fails: with two contours above the area threshold, the
    first fitted by a rectangle of zero m00, [detect] returns no list at
    all, so the second contour is not processed either. *)
Lemma detect_flat_box_not_skipped :
  m00 (moments (box_list (box_of (cv := cv_flat) contour_a))) = 0
  /\ ~ (exists out h',
         detect (cv := cv_flat) blue_image dimensions_640 scale_640
                (mkView 0 (0, 1)%Z (0, 1)%Z) ∅ = (Ok out, h')).
Proof.
  split; [exact flat_m00|]. intros (out & h' & Hrun).
  rewrite detect_unfold in Hrun.
  change (contours_of (cv := cv_flat) blue_image)
    with ([] ++ contour_a :: [contour_b]) in Hrun.
  rewrite (detect_loop_raise (cv := cv_flat) dimensions_640 scale_640
             (mkView 0 (0, 1)%Z (0, 1)%Z) [] [contour_b] contour_a)
    in Hrun.
  - discriminate Hrun.
  - constructor.
  - apply passes_contour_a.
  - exact flat_m00.
Qed.

(** C6 (amended). A contour is kept if and only if its area is strictly
    greater than 800: a contour of area 800 or less is dropped.  Every kept
    contour goes to the rectangle fitting and, when the fitted rectangles
    have a non-zero m00, yields one object, in the order of the contours.
    With no kept contour the result is the empty list, nothing is drawn and
    no exception is raised. *)
Theorem detect_area_filter {cv : OpenCV} (dimensions scale : R * R)
    (display : View) (image : Frame) (h : gmap nat Frame) :
  let kept := List.filter passes_area_filter (contours_of image) in
  (forall i, In i kept <-> In i (contours_of image) /\ contourArea i > 800)
  /\ (Forall (fun i => m00 (moments (box_list (box_of i))) <> 0) kept ->
      detect image dimensions scale display h
      = (Ok (map (fun i => pose_value dimensions scale (box_of i)) kept,
             display),
         overlay display (map box_of kept) h))
  /\ (kept = [] ->
      detect image dimensions scale display h = (Ok ([], display), h)).
Proof.
  intros kept. split; [|split].
  - intros i. unfold kept. rewrite filter_In, passes_area_filter_spec.
    reflexivity.
  - intros Hm. apply detect_ok. apply List.Forall_forall. intros i Hi Hp.
    rewrite List.Forall_forall in Hm. apply Hm. unfold kept.
    apply filter_In. split; assumption.
  - intros Hk. rewrite detect_ok.
    + fold kept. rewrite Hk. reflexivity.
    + apply List.Forall_forall. intros i Hi Hp. exfalso.
      assert (Hin : In i kept) by (apply filter_In; split; assumption).
      rewrite Hk in Hin. exact Hin.
Qed.

Lemma detect_area_filter_witness :
  detect (cv := cv_plain [contour_800; contour_a]) blue_image
         dimensions_640 scale_640 (mkView 0 (0, 1)%Z (0, 1)%Z) ∅
  = (Ok ([pose_value dimensions_640 scale_640 box_wide],
         mkView 0 (0, 1)%Z (0, 1)%Z),
     overlay (cv := cv_plain [contour_800; contour_a])
             (mkView 0 (0, 1)%Z (0, 1)%Z) [box_wide] ∅).
Proof.
  pose proof (detect_area_filter (cv := cv_plain [contour_800; contour_a])
                dimensions_640 scale_640 (mkView 0 (0, 1)%Z (0, 1)%Z)
                blue_image ∅) as H.
  cbv zeta in H. destruct H as (_ & H & _).
  change (contours_of (cv := cv_plain [contour_800; contour_a]) blue_image)
    with [contour_800; contour_a] in H.
  assert (Hk : List.filter
                 (passes_area_filter (cv := cv_plain [contour_800; contour_a]))
                 [contour_800; contour_a] = [contour_a]).
  { unfold List.filter, cv_plain.
    rewrite passes_contour_800, passes_contour_a. reflexivity. }
  rewrite Hk in H. cbn [map] in H. rewrite !box_of_contour_a in H.
  apply H. constructor; [|constructor].
  rewrite box_of_contour_a. exact box_wide_m00.
Defined.

(** C6 as stated fails at the threshold: a contour of area exactly 800 is
    not below the minimum, and it is dropped. *)
Lemma detect_drops_area_800 :
  ~ (contourArea (OpenCV := cv_plain [contour_800]) contour_800 < 800)
  /\ detect (cv := cv_plain [contour_800]) blue_image dimensions_640 scale_640
            (mkView 0 (0, 1)%Z (0, 1)%Z) ∅
     = (Ok ([], mkView 0 (0, 1)%Z (0, 1)%Z), ∅).
Proof.
  split.
  - unfold cv_plain. rewrite area_contour_800. lra.
  - rewrite detect_unfold.
    change (contours_of (cv := cv_plain [contour_800]) blue_image)
      with [contour_800].
    unfold detect_loop, cv_plain. rewrite passes_contour_800. reflexivity.
Qed.



Lemma detect_contour_a :
  detect (cv := cv_plain [contour_a]) blue_image dimensions_640 scale_640
         (mkView 0 (0, 1)%Z (0, 1)%Z) ∅
  = (Ok ([pose_value dimensions_640 scale_640 box_wide],
         mkView 0 (0, 1)%Z (0, 1)%Z),
     overlay (cv := cv_plain [contour_a])
             (mkView 0 (0, 1)%Z (0, 1)%Z) [box_wide] ∅).
Proof.
  rewrite detect_ok.
  - change (contours_of (cv := cv_plain [contour_a]) blue_image)
      with [contour_a].
    unfold List.filter, cv_plain. rewrite passes_contour_a.
    cbn [map]. fold (cv_plain [contour_a]). rewrite !box_of_contour_a.
    reflexivity.
  - change (contours_of (cv := cv_plain [contour_a]) blue_image)
      with [contour_a].
    constructor; [apply well_formed_contour_a|constructor].
Qed.


(** ** Thresholding *)

Lemma lookup_map {A B} (f : A -> B) (l : list A) (i : nat) :
  map f l !! i = f <$> (l !! i).
Proof.
  revert i. induction l as [|a l IH]; intros [|i]; simpl; auto.
Qed.

Lemma in_range_within (p lower upper : Pixel) :
  in_range p lower upper = true <-> within p lower upper.
Proof.
  destruct p as [[p0 p1] p2], lower as [[l0 l1] l2], upper as [[u0 u1] u2].
  unfold in_range, within. simpl.
  rewrite !andb_true_iff, !Z.leb_le. tauto.
Qed.

Lemma red_mask_lookup (hsv : Frame) (j i : nat) (row : list Pixel) (p : Pixel) :
  hsv !! j = Some row -> row !! i = Some p ->
  exists mrow,
    red_mask hsv !! j = Some mrow
    /\ mrow !! i
       = Some (Z.lor (if in_range p LOWER_RED_1 UPPER_RED_1 then 255 else 0)
                     (if in_range p LOWER_RED_2 UPPER_RED_2 then 255 else 0)).
Proof.
  intros Hrow Hp. unfold red_mask. cbv zeta. unfold bitwise_or, inRange.
  unfold Mask, Frame in *.
  eexists. split.
  - rewrite lookup_zip_with, !lookup_map, Hrow. simpl. reflexivity.
  - rewrite lookup_zip_with, !lookup_map, Hp. simpl. reflexivity.
Qed.

(** C7. In the red mask of lines 189-191, the entry of a pixel is 255 when
    the pixel lies within [LOWER_RED_1, UPPER_RED_1] or within
    [LOWER_RED_2, UPPER_RED_2], bounds included on each channel, and 0
    otherwise; a pixel whose hue is strictly between the upper hue of the
    first range and the lower hue of the second has entry 0. *)
Theorem red_mask_union (hsv : Frame) (j i : nat) (row : list Pixel)
    (p : Pixel) :
  hsv !! j = Some row -> row !! i = Some p ->
  exists mrow k,
    red_mask hsv !! j = Some mrow /\ mrow !! i = Some k
    /\ (within p LOWER_RED_1 UPPER_RED_1 \/ within p LOWER_RED_2 UPPER_RED_2
        -> k = 255%Z)
    /\ (~ (within p LOWER_RED_1 UPPER_RED_1 \/ within p LOWER_RED_2 UPPER_RED_2)
        -> k = 0%Z)
    /\ ((UPPER_RED_1.1.1 < p.1.1 < LOWER_RED_2.1.1)%Z -> k = 0%Z).
Proof.
  intros Hrow Hp.
  destruct (red_mask_lookup hsv j i row p Hrow Hp) as (mrow & Hm & Hk).
  exists mrow. eexists. split; [exact Hm|]. split; [exact Hk|].
  pose proof (in_range_within p LOWER_RED_1 UPPER_RED_1) as H1.
  pose proof (in_range_within p LOWER_RED_2 UPPER_RED_2) as H2.
  assert (Hout : ~ (within p LOWER_RED_1 UPPER_RED_1
                    \/ within p LOWER_RED_2 UPPER_RED_2) ->
                 Z.lor (if in_range p LOWER_RED_1 UPPER_RED_1 then 255 else 0)
                       (if in_range p LOWER_RED_2 UPPER_RED_2 then 255 else 0)
                 = 0%Z).
  { intros Hn.
    destruct (in_range p LOWER_RED_1 UPPER_RED_1);
      destruct (in_range p LOWER_RED_2 UPPER_RED_2);
      try reflexivity; exfalso; apply Hn; tauto. }
  split; [|split].
  - intros Hin.
    destruct (in_range p LOWER_RED_1 UPPER_RED_1);
      destruct (in_range p LOWER_RED_2 UPPER_RED_2);
      try reflexivity.
    exfalso. destruct Hin as [Hin|Hin]; [apply H1 in Hin|apply H2 in Hin];
      discriminate Hin.
  - exact Hout.
  - intros Hhue. apply Hout. unfold within. simpl in *. lia.
Qed.

Lemma red_mask_union_witness :
  exists mrow k,
    red_mask [[(5, 100, 100)%Z; (100, 100, 100)%Z]] !! 0%nat = Some mrow
    /\ mrow !! 1%nat = Some k
    /\ (within (100, 100, 100)%Z LOWER_RED_1 UPPER_RED_1
        \/ within (100, 100, 100)%Z LOWER_RED_2 UPPER_RED_2
        -> k = 255%Z)
    /\ (~ (within (100, 100, 100)%Z LOWER_RED_1 UPPER_RED_1
           \/ within (100, 100, 100)%Z LOWER_RED_2 UPPER_RED_2)
        -> k = 0%Z)
    /\ ((UPPER_RED_1.1.1 < 100 < LOWER_RED_2.1.1)%Z -> k = 0%Z).
Proof.
  exact (red_mask_union [[(5, 100, 100)%Z; (100, 100, 100)%Z]] 0 1
           [(5, 100, 100)%Z; (100, 100, 100)%Z] (100, 100, 100)%Z
           eq_refl eq_refl).
Defined.

(** ** The region of interest *)

Lemma roi_unfold {cv : OpenCV} (raw : nat) (h : gmap nat Frame) :
  let f := buffer h raw in
  let rows := Z.of_nat (length f) in
  let cols := Z.of_nat (length (List.hd [] f)) in
  (0 < cols)%Z -> (0 < rows - rows / 3)%Z ->
  roi raw h
  = (Ok ((IZR cols, IZR (rows - rows / 3)),
         (IZR ACTUAL_WIDTH / IZR cols,
          IZR ACTUAL_HEIGHT / IZR (rows - rows / 3)),
         mkView raw ((rows / 3)%Z, rows) (0%Z, cols)),
     <[raw := rectangle f (0, rows / 3)%Z (cols, rows) (0, 0, 0)%Z 2]> h).
Proof.
  intros f rows cols Hc Hr. unfold roi, shape. fold f. fold rows. fold cols.
  cbv zeta. cbn [fst snd].
  assert (Hrows : (0 <= rows)%Z) by (unfold rows; lia).
  rewrite !trunc_IZR, (trunc_third rows Hrows), Z.sub_0_r.
  unfold bind.
  rewrite py_div_ok by (apply not_0_IZR; lia).
  rewrite py_div_ok by (apply not_0_IZR; lia).
  reflexivity.
Qed.

Lemma py_slice_tail {A} (l : list A) (lo hi : Z) :
  Z.to_nat hi = length l -> py_slice lo hi l = drop (Z.to_nat lo) l.
Proof.
  intros Hhi. unfold py_slice. apply take_ge.
  rewrite length_drop. lia.
Qed.

Lemma py_slice_all {A} (l : list A) (hi : Z) :
  Z.to_nat hi = length l -> py_slice 0 hi l = l.
Proof. intros Hhi. rewrite py_slice_tail by exact Hhi. reflexivity. Qed.

Lemma crop_lower_rows (g : Frame) (lo rows cols : Z) :
  Z.to_nat rows = length g ->
  Forall (fun row => length row = Z.to_nat cols) g ->
  crop g (lo, rows) (0%Z, cols) = drop (Z.to_nat lo) g.
Proof.
  intros Hrows Hcols. unfold crop. cbn [fst snd].
  rewrite py_slice_tail by exact Hrows.
  assert (Hd : Forall (fun row : list Pixel => length row = Z.to_nat cols)
                      (drop (Z.to_nat lo) g)) by (apply Forall_drop; exact Hcols).
  induction Hd as [|row rest Hrow _ IH]; [reflexivity|].
  simpl. rewrite py_slice_all by (symmetry; exact Hrow). f_equal. exact IH.
Qed.

(** C8. For a frame of [rows] by [cols] pixels with positive cropped
    dimensions, the region of interest is the window of rows
    floor(rows/3) up to rows and of all the columns, its content is the
    frame without its first floor(rows/3) rows, and the scale factors are
    43 over the cropped width and 20 over the cropped height, both
    strictly positive. *)
Theorem roi_crop_and_scale {cv : OpenCV} (raw : nat) (h : gmap nat Frame) :
  let f := buffer h raw in
  let rows := Z.of_nat (length f) in
  let cols := Z.of_nat (length (List.hd [] f)) in
  (0 < cols)%Z -> (0 < rows - rows / 3)%Z ->
  exists dimensions scale image h',
    roi raw h = (Ok (dimensions, scale, image), h')
    /\ image = mkView raw ((rows / 3)%Z, rows) (0%Z, cols)
    /\ (forall g : Frame,
          length g = length f ->
          Forall (fun row => length row = length (List.hd [] f)) g ->
          crop g (v_rows image) (v_cols image)
          = drop (Z.to_nat (rows / 3)) g)
    /\ dimensions = (IZR cols, IZR (rows - rows / 3))
    /\ scale = (IZR ACTUAL_WIDTH / dimensions.1,
                IZR ACTUAL_HEIGHT / dimensions.2)
    /\ 0 < scale.1 /\ 0 < scale.2.
Proof.
  intros f rows cols Hc Hr.
  pose proof (roi_unfold raw h Hc Hr) as Hroi. cbv zeta in Hroi.
  fold f in Hroi. fold rows in Hroi. fold cols in Hroi.
  do 4 eexists. split; [exact Hroi|]. split; [reflexivity|].
  split; [|split; [reflexivity|split; [reflexivity|]]].
  - intros g Hlen Hrows. cbn [v_rows v_cols]. apply crop_lower_rows.
    + unfold rows. lia.
    + unfold cols. rewrite Nat2Z.id. exact Hrows.
  - cbn [fst snd]. unfold ACTUAL_WIDTH, ACTUAL_HEIGHT.
    apply IZR_lt in Hc. apply IZR_lt in Hr.
    split; apply Rdiv_lt_0_compat; lra.
Qed.

Lemma roi_crop_and_scale_witness :
  exists dimensions scale image h',
    roi (cv := cv_plain []) 0 blue_heap = (Ok (dimensions, scale, image), h')
    /\ image = mkView 0 (1%Z, 3%Z) (0%Z, 3%Z)
    /\ (forall g : Frame,
          length g = 3%nat ->
          Forall (fun row => length row = 3%nat) g ->
          crop g (v_rows image) (v_cols image) = drop 1 g)
    /\ dimensions = (3, 2)
    /\ scale = (IZR ACTUAL_WIDTH / dimensions.1,
                IZR ACTUAL_HEIGHT / dimensions.2)
    /\ 0 < scale.1 /\ 0 < scale.2.
Proof.
  exact (roi_crop_and_scale (cv := cv_plain []) 0 blue_heap
           ltac:(vm_compute; reflexivity) ltac:(vm_compute; reflexivity)).
Defined.

(** ** What the pipeline draws on *)

Lemma overlay_app {cv : OpenCV} (display : View) (bs cs : list BoxPoints)
    (h : gmap nat Frame) :
  overlay display (bs ++ cs) h = overlay display cs (overlay display bs h).
Proof. unfold overlay. apply foldl_app. Qed.

Lemma overlay_lookup_ne {cv : OpenCV} (display : View) (bs : list BoxPoints)
    (h : gmap nat Frame) (l : nat) :
  l <> v_base display -> overlay display bs h !! l = h !! l.
Proof.
  intros Hl. revert h. induction bs as [|b bs IH]; intros h; [reflexivity|].
  rewrite overlay_cons, IH. unfold draw_on_view. cbn [snd].
  apply lookup_insert_ne. congruence.
Qed.

Lemma detect_loop_heap {cv : OpenCV} (dimensions scale : R * R)
    (display : View) (contours : list Contour) :
  forall detected h,
  exists boxes,
    (detect_loop dimensions scale display contours detected h).2
    = overlay display boxes h
    /\ forall out,
        (detect_loop dimensions scale display contours detected h).1 = Ok out ->
        length out = (length detected + length boxes)%nat.
Proof.
  induction contours as [|i contours IH]; intros detected h.
  - exists []. split; [reflexivity|]. intros out [= <-]. simpl. lia.
  - simpl. destruct (passes_area_filter i) eqn:Hp; [|apply IH].
    unfold bind. fold (box_of i).
    destruct (Req_dec_T (m00 (moments (box_list (box_of i)))) 0) as [E|E].
    + rewrite pose_zero by exact E. exists [].
      split; [reflexivity|]. intros out H. discriminate H.
    + rewrite pose_ok by exact E. simpl.
      destruct (IH (detected ++ [pose_value dimensions scale (box_of i)])
                  (draw_on_view display
                     (fun d => drawContours d [box_of i] 0 (255, 255, 0)%Z 2)
                     h).2) as (boxes & Hh & Hlen).
      exists (box_of i :: boxes). split.
      * rewrite overlay_cons. exact Hh.
      * intros out Hout. rewrite (Hlen out Hout), length_app. simpl. lia.
Qed.

Lemma detect_heap {cv : OpenCV} (dimensions scale : R * R) (display : View)
    (image : Frame) (h : gmap nat Frame) :
  exists boxes,
    (detect image dimensions scale display h).2 = overlay display boxes h
    /\ forall detected d,
        (detect image dimensions scale display h).1 = Ok (detected, d) ->
        d = display /\ length detected = length boxes.
Proof.
  destruct (detect_loop_heap dimensions scale display (contours_of image) [] h)
    as (boxes & Hh & Hlen).
  exists boxes. rewrite detect_unfold.
  destruct (detect_loop dimensions scale display (contours_of image) [] h)
    as [[out|e] h1]; simpl in *.
  - split; [exact Hh|]. intros detected d [= <- <-].
    split; [reflexivity|]. apply Hlen. reflexivity.
  - split; [exact Hh|]. intros detected d H. discriminate H.
Qed.

Lemma buffer_insert (h : gmap nat Frame) (a : nat) (g : Frame) :
  buffer (<[a := g]> h) a = g.
Proof. unfold buffer. rewrite lookup_insert_eq. reflexivity. Qed.

Lemma process_image_unfold {cv : OpenCV} (raw : nat) (h : gmap nat Frame) :
  let f := buffer h raw in
  (0 < frame_cols f)%Z -> (0 < frame_rows f - frame_rows f / 3)%Z ->
  process_image raw h
  = (let* (cubes, display) :=
       detect (class_image f Green) (roi_dimensions f) (roi_scale f)
              (roi_view raw f) in
     let* (cuboids, display) :=
       detect (class_image f Yellow) (roi_dimensions f) (roi_scale f)
              display in
     let* (long_cuboids, display) :=
       detect (class_image f Red) (roi_dimensions f) (roi_scale f) display in
     ret ([cubes; cuboids; long_cuboids], combined f))
      (<[raw := boundary f]> h).
Proof.
  intros f Hc Hr. unfold process_image at 1. unfold bind at 1.
  rewrite (roi_unfold raw h Hc Hr). cbv zeta. cbn [fst snd].
  unfold bind at 1, read_view at 1. cbn [v_base v_rows v_cols].
  rewrite !buffer_insert. reflexivity.
Qed.

Lemma detect_no_contour {cv : OpenCV} (dimensions scale : R * R)
    (display : View) (image : Frame) (h : gmap nat Frame) :
  contours_of image = [] ->
  detect image dimensions scale display h = (Ok ([], display), h).
Proof. intros Hc. rewrite detect_unfold, Hc. reflexivity. Qed.

Lemma process_image_heap {cv : OpenCV} (raw : nat) (h : gmap nat Frame) :
  let f := buffer h raw in
  (0 < frame_cols f)%Z -> (0 < frame_rows f - frame_rows f / 3)%Z ->
  exists boxes,
    (process_image raw h).2
    = overlay (roi_view raw f) boxes (<[raw := boundary f]> h)
    /\ forall arr comb,
        (process_image raw h).1 = Ok (arr, comb) ->
        length boxes = length (concat arr).
Proof.
  intros f0 Hc Hr. rewrite (process_image_unfold raw h Hc Hr).
  subst f0. set (f := buffer h raw) in *.
  set (h1 := <[raw := boundary f]> h). set (v := roi_view raw f).
  set (dims := roi_dimensions f). set (sc := roi_scale f).
  unfold bind.
  destruct (detect_heap dims sc v (class_image f Green) h1)
    as (b1 & Hh1 & Hd1).
  destruct (detect (class_image f Green) dims sc v h1)
    as [[[cubes d1]|e1] h2]; simpl in Hh1, Hd1;
    [|exists b1; split; [exact Hh1|intros arr comb H; discriminate H]].
  destruct (Hd1 cubes d1 eq_refl) as [-> Hl1]. cbn [fst snd].
  destruct (detect_heap dims sc v (class_image f Yellow) h2)
    as (b2 & Hh2 & Hd2).
  destruct (detect (class_image f Yellow) dims sc v h2)
    as [[[cuboids d2]|e2] h3]; simpl in Hh2, Hd2;
    [|exists (b1 ++ b2); split;
      [rewrite overlay_app, <- Hh1; exact Hh2
      |intros arr comb H; discriminate H]].
  destruct (Hd2 cuboids d2 eq_refl) as [-> Hl2]. cbn [fst snd].
  destruct (detect_heap dims sc v (class_image f Red) h3)
    as (b3 & Hh3 & Hd3).
  destruct (detect (class_image f Red) dims sc v h3)
    as [[[long_cuboids d3]|e3] h4]; simpl in Hh3, Hd3;
    [|exists (b1 ++ b2 ++ b3); split;
      [rewrite !overlay_app, <- Hh1, <- Hh2; exact Hh3
      |intros arr comb H; discriminate H]].
  destruct (Hd3 long_cuboids d3 eq_refl) as [-> Hl3]. cbn [fst snd].
  exists (b1 ++ b2 ++ b3). split.
  - simpl. rewrite !overlay_app, <- Hh1, <- Hh2. exact Hh3.
  - intros arr comb [= <- _]. simpl.
    rewrite !length_app. simpl. lia.
Qed.

(** C5 (amended). The pipeline draws in place on the caller's frame: the
    boundary of the region is drawn on the caller's array itself, and each
    rectangle overlay is drawn through the cropped view on that same
    buffer, one overlay per detected object.  After a run without
    detection the caller's buffer holds the frame with the boundary drawn.
    The buffers other than the caller's frame are not changed. *)
Theorem process_image_draws_in_place {cv : OpenCV} (raw : nat)
    (h : gmap nat Frame) :
  let f := buffer h raw in
  (0 < frame_cols f)%Z -> (0 < frame_rows f - frame_rows f / 3)%Z ->
  let h' := (process_image raw h).2 in
  (forall l, l <> raw -> h' !! l = h !! l)
  /\ (exists boxes,
        h' = overlay (roi_view raw f) boxes (<[raw := boundary f]> h)
        /\ forall arr comb,
            (process_image raw h).1 = Ok (arr, comb) ->
            length boxes = length (concat arr))
  /\ (forall comb,
        (process_image raw h).1 = Ok ([[]; []; []], comb) ->
        buffer h' raw = boundary f).
Proof.
  intros f Hc Hr h'.
  destruct (process_image_heap raw h Hc Hr) as (boxes & Hh & Hlen).
  fold f in Hh. fold h' in Hh.
  split; [|split].
  - intros l Hl. rewrite Hh, overlay_lookup_ne by exact Hl.
    apply lookup_insert_ne. congruence.
  - exists boxes. split; assumption.
  - intros comb Hrun. apply Hlen in Hrun. simpl in Hrun.
    destruct boxes; [|discriminate Hrun].
    rewrite Hh. simpl. apply buffer_insert.
Qed.

Lemma blue_heap_cols : (0 < frame_cols (buffer blue_heap 0))%Z.
Proof. vm_compute. reflexivity. Qed.

Lemma blue_heap_rows :
  (0 < frame_rows (buffer blue_heap 0)
       - frame_rows (buffer blue_heap 0) / 3)%Z.
Proof. vm_compute. reflexivity. Qed.

Lemma process_image_draws_in_place_witness :
  let h' := (process_image (cv := cv_plain []) 0 blue_heap).2 in
  (forall l, l <> 0%nat -> h' !! l = blue_heap !! l)
  /\ (exists boxes,
        h' = overlay (cv := cv_plain []) (roi_view 0 (buffer blue_heap 0)) boxes
               (<[0%nat := boundary (cv := cv_plain []) (buffer blue_heap 0)]>
                  blue_heap)
        /\ forall arr comb,
            (process_image (cv := cv_plain []) 0 blue_heap).1 = Ok (arr, comb) ->
            length boxes = length (concat arr))
  /\ (forall comb,
        (process_image (cv := cv_plain []) 0 blue_heap).1
        = Ok ([[]; []; []], comb) ->
        buffer h' 0 = boundary (cv := cv_plain []) (buffer blue_heap 0)).
Proof.
  exact (process_image_draws_in_place (cv := cv_plain []) 0 blue_heap
           blue_heap_cols blue_heap_rows).
Defined.

Lemma contours_of_nothing (box : Contour -> Corners) (image : Frame) :
  contours_of (cv := scripted [] box) image = [].
Proof.
  unfold contours_of. simpl. destruct (any_set _); reflexivity.
Qed.

Lemma process_image_nothing :
  process_image (cv := cv_plain []) 0 blue_heap
  = (Ok ([[]; []; []], combined (cv := cv_plain []) blue_frame),
     <[0%nat := boundary (cv := cv_plain []) blue_frame]> blue_heap).
Proof.
  rewrite (process_image_unfold (cv := cv_plain []) 0 blue_heap
             blue_heap_cols blue_heap_rows).
  change (buffer blue_heap 0) with blue_frame.
  unfold bind.
  rewrite !(detect_no_contour (cv := cv_plain [])) by apply contours_of_nothing.
  reflexivity.
Qed.

(** C5 as stated fails: on a frame of 3 by 3 pixels where nothing is
    detected, the call leaves the boundary of the region drawn in the
    caller's buffer. *)
Lemma process_image_changes_frame :
  buffer (process_image (cv := cv_plain []) 0 blue_heap).2 0
  <> buffer blue_heap 0.
Proof.
  rewrite process_image_nothing. cbn [snd]. rewrite buffer_insert.
  vm_compute. discriminate.
Qed.

(** ** The classes that are detected *)

Lemma detect_display {cv : OpenCV} (dimensions scale : R * R)
    (display d : View) (image : Frame) (h h' : gmap nat Frame)
    (detected : list DetectedObject) :
  detect image dimensions scale display h = (Ok (detected, d), h') ->
  d = display.
Proof.
  rewrite detect_unfold.
  destruct (detect_loop dimensions scale display (contours_of image) [] h)
    as [[out|e] h1]; [|discriminate].
  intros [= _ <- _]. reflexivity.
Qed.

(** C4 (amended). The orchestrator runs [detect] on the masked images of
    three classes, green, then yellow, then red, each on the display left by
    the one before, and returns their three sequences in that order.  The
    blue class is thresholded, cleaned and masked like the others, and its
    masked image enters the combined image only: no detection is run on
    it. *)
Theorem process_image_classes {cv : OpenCV} (raw : nat) (h : gmap nat Frame) :
  let f := buffer h raw in
  (0 < frame_cols f)%Z -> (0 < frame_rows f - frame_rows f / 3)%Z ->
  let run c :=
    detect (class_image f c) (roi_dimensions f) (roi_scale f)
           (roi_view raw f) in
  forall arr comb h',
    process_image raw h = (Ok (arr, comb), h')
    <-> exists cubes cuboids long_cuboids h2 h3,
          run Green (<[raw := boundary f]> h) = (Ok (cubes, roi_view raw f), h2)
          /\ run Yellow h2 = (Ok (cuboids, roi_view raw f), h3)
          /\ run Red h3 = (Ok (long_cuboids, roi_view raw f), h')
          /\ arr = [cubes; cuboids; long_cuboids]
          /\ comb = uint8_add (uint8_add (class_image f Red)
                                         (class_image f Blue))
                              (class_image f Yellow).
Proof.
  intros f0 Hc Hr run arr comb h'.
  rewrite (process_image_unfold raw h Hc Hr).
  subst run f0. set (f := buffer h raw) in *.
  set (h1 := <[raw := boundary f]> h). set (v := roi_view raw f).
  set (dims := roi_dimensions f). set (sc := roi_scale f).
  unfold bind. split.
  - destruct (detect (class_image f Green) dims sc v h1)
      as [[[cubes d1]|e1] h2] eqn:E1; [|discriminate].
    pose proof (detect_display _ _ _ _ _ _ _ _ E1) as ->. cbn [fst snd].
    destruct (detect (class_image f Yellow) dims sc v h2)
      as [[[cuboids d2]|e2] h3] eqn:E2; [|discriminate].
    pose proof (detect_display _ _ _ _ _ _ _ _ E2) as ->. cbn [fst snd].
    destruct (detect (class_image f Red) dims sc v h3)
      as [[[long_cuboids d3]|e3] h4] eqn:E3; [|discriminate].
    pose proof (detect_display _ _ _ _ _ _ _ _ E3) as ->. cbn [fst snd].
    intros [= <- <- <-].
    exists cubes, cuboids, long_cuboids, h2, h3.
    repeat split; try reflexivity; assumption.
  - intros (cubes & cuboids & long_cuboids & h2 & h3
            & E1 & E2 & E3 & -> & ->).
    rewrite E1. cbn [fst snd]. rewrite E2. cbn [fst snd]. rewrite E3.
    reflexivity.
Qed.

Lemma process_image_classes_witness :
  exists cubes cuboids long_cuboids h2 h3,
    detect (cv := cv_plain []) (class_image (cv := cv_plain []) (buffer blue_heap 0) Green)
           (roi_dimensions (buffer blue_heap 0))
           (roi_scale (buffer blue_heap 0))
           (roi_view 0 (buffer blue_heap 0))
           (<[0%nat := boundary (cv := cv_plain []) (buffer blue_heap 0)]> blue_heap)
    = (Ok (cubes, roi_view 0 (buffer blue_heap 0)), h2)
    /\ detect (cv := cv_plain []) (class_image (cv := cv_plain []) (buffer blue_heap 0) Yellow)
              (roi_dimensions (buffer blue_heap 0))
              (roi_scale (buffer blue_heap 0))
              (roi_view 0 (buffer blue_heap 0)) h2
       = (Ok (cuboids, roi_view 0 (buffer blue_heap 0)), h3)
    /\ detect (cv := cv_plain []) (class_image (cv := cv_plain []) (buffer blue_heap 0) Red)
              (roi_dimensions (buffer blue_heap 0))
              (roi_scale (buffer blue_heap 0))
              (roi_view 0 (buffer blue_heap 0)) h3
       = (Ok (long_cuboids, roi_view 0 (buffer blue_heap 0)),
          <[0%nat := boundary (cv := cv_plain []) blue_frame]> blue_heap)
    /\ [[]; []; []] = [cubes; cuboids; long_cuboids]
    /\ combined (cv := cv_plain []) blue_frame
       = uint8_add (uint8_add (class_image (cv := cv_plain []) (buffer blue_heap 0) Red)
                              (class_image (cv := cv_plain []) (buffer blue_heap 0) Blue))
                   (class_image (cv := cv_plain []) (buffer blue_heap 0) Yellow).
Proof.
  exact (proj1 (process_image_classes (cv := cv_plain []) 0 blue_heap
                  blue_heap_cols blue_heap_rows _ _ _)
               process_image_nothing).
Defined.

Lemma contours_of_blue_class :
  contours_of (cv := cv_plain [contour_a])
              (class_image (cv := cv_plain [contour_a]) blue_frame Blue)
  = [contour_a].
Proof. vm_compute. reflexivity. Qed.

Lemma contours_of_other_classes (c : ColorClass) :
  c <> Blue ->
  contours_of (cv := cv_plain [contour_a])
              (class_image (cv := cv_plain [contour_a]) blue_frame c)
  = [].
Proof.
  destruct c; intros Hc; try contradiction; vm_compute; reflexivity.
Qed.

(** C4 as stated fails for the blue class: on a frame whose region holds
    blue pixels only, detection on the blue masked image yields an object,
    and the result of the pipeline holds three empty sequences. *)
Lemma blue_class_not_detected :
  exists arr comb h' o h'',
    process_image (cv := cv_plain [contour_a]) 0 blue_heap
    = (Ok (arr, comb), h')
    /\ detect (cv := cv_plain [contour_a])
              (class_image (cv := cv_plain [contour_a]) blue_frame Blue)
              (roi_dimensions blue_frame) (roi_scale blue_frame)
              (roi_view 0 blue_frame)
              (<[0%nat := boundary (cv := cv_plain [contour_a]) blue_frame]>
                 blue_heap)
       = (Ok ([o], roi_view 0 blue_frame), h'')
    /\ ~ In [o] arr.
Proof.
  exists [[]; []; []]. do 2 eexists.
  exists (pose_value (roi_dimensions blue_frame) (roi_scale blue_frame) box_wide).
  eexists. split; [|split].
  - rewrite (process_image_unfold (cv := cv_plain [contour_a]) 0 blue_heap
               blue_heap_cols blue_heap_rows).
    change (buffer blue_heap 0) with blue_frame. unfold bind.
    rewrite !(detect_no_contour (cv := cv_plain [contour_a]))
      by (apply contours_of_other_classes; discriminate).
    reflexivity.
  - rewrite detect_ok.
    + rewrite contours_of_blue_class.
      unfold List.filter, cv_plain. rewrite passes_contour_a.
      cbn [map]. fold (cv_plain [contour_a]). rewrite !box_of_contour_a.
      reflexivity.
    + rewrite contours_of_blue_class.
      constructor; [apply well_formed_contour_a|constructor].
  - simpl. intros [H|[H|[H|[]]]]; discriminate H.
Qed.

(** ** Determinism *)

Section Determinism.
Context {cv : OpenCV}.
Variables raw1 raw2 : nat.

Abbreviation agree := (agree raw1 raw2).
Abbreviation same_window := (same_window raw1 raw2).
Abbreviation same_detection := (same_detection raw1 raw2).
Abbreviation same_roi := (same_roi raw1 raw2).

Lemma agree_ret {A B} (P : A -> B -> Prop) (a : A) (b : B) :
  P a b -> agree P (ret a) (ret b).
Proof. intros Hab h1 h2 Hh. split; [exact Hab|exact Hh]. Qed.

Lemma agree_bind {A1 A2 B1 B2} (P : A1 -> A2 -> Prop) (Q : B1 -> B2 -> Prop)
    (c1 : M A1) (c2 : M A2) (k1 : A1 -> M B1) (k2 : A2 -> M B2) :
  agree P c1 c2 ->
  (forall a b, P a b -> agree Q (k1 a) (k2 b)) ->
  agree Q (bind c1 k1) (bind c2 k2).
Proof.
  intros Hc Hk h1 h2 Hh. unfold bind.
  destruct (Hc h1 h2 Hh) as [Hr Hh'].
  destruct (c1 h1) as [[a|e1] h1'], (c2 h2) as [[b|e2] h2'];
    simpl in Hr, Hh'; try contradiction.
  - apply Hk; assumption.
  - split; assumption.
Qed.

Lemma agree_py_div (x y : R) : agree eq (py_div x y) (py_div x y).
Proof.
  intros h1 h2 Hh. unfold py_div.
  destruct (Req_dec_T y 0); (split; [reflexivity|exact Hh]).
Qed.

Lemma agree_pose (dimensions scale : R * R) (b : BoxPoints) :
  agree eq (pose dimensions scale b) (pose dimensions scale b).
Proof.
  unfold pose.
  apply (agree_bind eq); [apply agree_py_div|]. intros q ? <-.
  apply (agree_bind eq); [apply agree_py_div|]. intros q' ? <-.
  apply agree_ret. reflexivity.
Qed.

Lemma agree_draw_on_array (draw : Frame -> Frame) :
  agree eq (draw_on_array raw1 draw) (draw_on_array raw2 draw).
Proof.
  intros h1 h2 Hh. split; [reflexivity|].
  unfold draw_on_array, same_frame. cbn [snd].
  rewrite !buffer_insert. f_equal. exact Hh.
Qed.

Lemma agree_draw_on_view (v1 v2 : View) (draw : Frame -> Frame) :
  same_window v1 v2 ->
  agree eq (draw_on_view v1 draw) (draw_on_view v2 draw).
Proof.
  intros (Hb1 & Hb2 & Hrows & Hcols) h1 h2 Hh. split; [reflexivity|].
  unfold draw_on_view, same_frame in *. cbn [snd].
  rewrite Hb1, Hb2, !buffer_insert, Hrows, Hcols, Hh. reflexivity.
Qed.

Lemma agree_read_view (v1 v2 : View) :
  same_window v1 v2 -> agree eq (read_view v1) (read_view v2).
Proof.
  intros (Hb1 & Hb2 & Hrows & Hcols) h1 h2 Hh.
  unfold read_view, same_frame in *. cbn [fst snd].
  split; [|exact Hh]. simpl. rewrite Hb1, Hb2, Hrows, Hcols, Hh.
  reflexivity.
Qed.

Lemma agree_detect_loop (dimensions scale : R * R) (v1 v2 : View)
    (contours : list Contour) :
  same_window v1 v2 ->
  forall detected,
    agree eq (detect_loop dimensions scale v1 contours detected)
             (detect_loop dimensions scale v2 contours detected).
Proof.
  intros Hv. induction contours as [|i contours IH]; intros detected.
  - apply agree_ret. reflexivity.
  - simpl. destruct (passes_area_filter i); [|apply IH].
    apply (agree_bind eq); [apply agree_pose|]. intros o ? <-.
    apply (agree_bind eq); [apply agree_draw_on_view; exact Hv|].
    intros _ _ _. apply IH.
Qed.

Lemma agree_detect (image : Frame) (dimensions scale : R * R)
    (v1 v2 : View) :
  same_window v1 v2 ->
  agree same_detection (detect image dimensions scale v1)
                       (detect image dimensions scale v2).
Proof.
  intros Hv. unfold detect.
  apply (agree_bind eq); [apply agree_detect_loop; exact Hv|].
  intros detected ? <-. apply agree_ret. split; [reflexivity|exact Hv].
Qed.

Lemma agree_roi : agree same_roi (roi raw1) (roi raw2).
Proof.
  intros h1 h2 Hh. unfold roi, shape. rewrite Hh. cbv zeta. cbn [fst snd].
  refine (agree_bind eq same_roi _ _ _ _ (agree_py_div _ _) _ h1 h2 Hh).
  intros ws ? <-.
  apply (agree_bind eq); [apply agree_py_div|]. intros hs ? <-.
  apply (agree_bind eq); [apply agree_draw_on_array|]. intros _ _ _.
  apply agree_ret. split; [reflexivity|].
  repeat split; reflexivity.
Qed.

Lemma agree_process_image :
  agree eq (process_image raw1) (process_image raw2).
Proof.
  unfold process_image.
  apply (agree_bind same_roi); [apply agree_roi|].
  intros [[d1 s1] v1] [[d2 s2] v2] [Hds Hv]. simpl in Hds, Hv.
  injection Hds as <- <-. cbn [fst snd].
  apply (agree_bind eq); [apply agree_read_view; exact Hv|].
  intros image ? <-.
  apply (agree_bind same_detection); [apply agree_detect; exact Hv|].
  intros [cubes w1] [? w1'] [Hc Hw1]. simpl in Hc, Hw1. subst.
  cbn [fst snd].
  apply (agree_bind same_detection); [apply agree_detect; exact Hw1|].
  intros [cuboids w2] [? w2'] [Hc Hw2]. simpl in Hc, Hw2. subst.
  cbn [fst snd].
  apply (agree_bind same_detection); [apply agree_detect; exact Hw2|].
  intros [long_cuboids w3] [? w3'] [Hc Hw3]. simpl in Hc, Hw3. subst.
  cbn [fst snd].
  apply agree_ret. reflexivity.
Qed.

End Determinism.

(** C9. Two runs of the pipeline on arrays that hold the same pixels return
    the same detection sequences and the same combined image, or raise the
    same exception, whatever else the two heaps hold and wherever the
    arrays are; they leave the same pixels in the two arrays.  The same
    holds for [detect] on two views of the same window. *)
Theorem process_image_deterministic {cv : OpenCV} (raw1 raw2 : nat)
    (h1 h2 : gmap nat Frame) :
  buffer h1 raw1 = buffer h2 raw2 ->
  (process_image raw1 h1).1 = (process_image raw2 h2).1
  /\ buffer (process_image raw1 h1).2 raw1
     = buffer (process_image raw2 h2).2 raw2
  /\ forall image dimensions scale rows cols,
       fmap_result fst
         (detect image dimensions scale (mkView raw1 rows cols) h1).1
       = fmap_result fst
           (detect image dimensions scale (mkView raw2 rows cols) h2).1.
Proof.
  intros Hh. split; [|split].
  - destruct (agree_process_image raw1 raw2 h1 h2 Hh) as [Hr _].
    destruct (process_image raw1 h1).1, (process_image raw2 h2).1;
      simpl in Hr; try contradiction; congruence.
  - apply (agree_process_image raw1 raw2 h1 h2 Hh).
  - intros image dimensions scale rows cols.
    assert (Hv : same_window raw1 raw2 (mkView raw1 rows cols)
                             (mkView raw2 rows cols))
      by (repeat split; reflexivity).
    destruct (agree_detect raw1 raw2 image dimensions scale _ _ Hv h1 h2 Hh)
      as [Hr _].
    destruct (detect image dimensions scale (mkView raw1 rows cols) h1).1
      as [[l1 w1]|e1],
             (detect image dimensions scale (mkView raw2 rows cols) h2).1
      as [[l2 w2]|e2];
      simpl in Hr; try contradiction.
    + destruct Hr as [Hl _]. simpl in Hl. subst. reflexivity.
    + subst. reflexivity.
Qed.

Lemma process_image_deterministic_witness :
  buffer blue_heap 0 = buffer other_heap 5
  /\ (process_image (cv := cv_plain [contour_a]) 0 blue_heap).1
     = (process_image (cv := cv_plain [contour_a]) 5 other_heap).1.
Proof.
  assert (H : buffer blue_heap 0 = buffer other_heap 5)
    by (vm_compute; reflexivity).
  split; [exact H|].
  exact (proj1 (process_image_deterministic (cv := cv_plain [contour_a])
                  0 5 blue_heap other_heap H)).
Defined.

(** * Further properties of the pipeline *)

(** ** The yaw *)

Lemma sq_norm_flip (p : Pt) : sq_norm (flip p) = sq_norm p.
Proof. unfold sq_norm, flip. simpl. ring. Qed.

Lemma edges_mirror (b : BoxPoints) :
  edge1 (mirror_box b) = flip (edge1 b)
  /\ edge2 (mirror_box b) = flip (edge2 b).
Proof.
  unfold edge1, edge2, mirror_box, pt_sub, flip. simpl.
  split; f_equal; ring.
Qed.

Lemma longer_edge_mirror (b : BoxPoints) :
  longer_edge (mirror_box b) = flip (longer_edge b).
Proof.
  unfold longer_edge. destruct (edges_mirror b) as [-> ->].
  rewrite !sq_norm_flip.
  destruct (sq_norm (edge1 b) <? sq_norm (edge2 b))%Z; reflexivity.
Qed.

(** X1. The yaw does not tell a box from its mirror image in the x axis:
    the sign of the vertical component of the long edge is lost. *)
Theorem get_angle_mirror (b : BoxPoints) :
  edge1 b <> (0, 0)%Z \/ edge2 b <> (0, 0)%Z ->
  get_angle (mirror_box b) = get_angle b.
Proof.
  intros _. rewrite !get_angle_unfold, longer_edge_mirror.
  rewrite !linalg_norm_float, sq_norm_flip. reflexivity.
Qed.

Lemma get_angle_mirror_witness :
  (edge1 box_east <> (0, 0)%Z \/ edge2 box_east <> (0, 0)%Z)
  /\ get_angle (mirror_box box_east) = get_angle box_east.
Proof.
  assert (H : edge1 box_east <> (0, 0)%Z \/ edge2 box_east <> (0, 0)%Z)
    by (left; vm_compute; discriminate).
  split; [exact H | exact (get_angle_mirror box_east H)].
Defined.

(** X2. The yaw is never strictly between -pi and 0: it lies between 0
    (included) and pi (excluded), or it is -pi.  Which of the two an edge
    along the negative x axis gives is not stated. *)
Theorem get_angle_values (b : BoxPoints) :
  edge1 b <> (0, 0)%Z \/ edge2 b <> (0, 0)%Z ->
  0 <= get_angle b < PI \/ get_angle b = - PI.
Proof.
  intros Hb. pose proof (longer_edge_nonzero b Hb) as He.
  destruct (decide (((longer_edge b).2 = 0 /\ (longer_edge b).1 < 0)%Z))
    as [Hw|Hw].
  - destruct (get_angle_west b He Hw) as [_ Hg]. right. exact Hg.
  - destruct (get_angle_generic b He Hw) as [_ Hg]. left. exact Hg.
Qed.

Lemma get_angle_values_witness :
  (edge1 box_west <> (0, 0)%Z \/ edge2 box_west <> (0, 0)%Z)
  /\ (0 <= get_angle box_west < PI \/ get_angle box_west = - PI).
Proof.
  assert (H : edge1 box_west <> (0, 0)%Z \/ edge2 box_west <> (0, 0)%Z)
    by (left; vm_compute; discriminate).
  split; [exact H | exact (get_angle_values box_west H)].
Defined.

(** X3. A box whose long edge is vertical, upwards or downwards, has yaw
    pi/2; a box whose long edge points along the positive x axis has
    yaw 0. *)
Theorem get_angle_axis_aligned (b : BoxPoints) :
  edge1 b <> (0, 0)%Z \/ edge2 b <> (0, 0)%Z ->
  let e := longer_edge b in
  (e.1 = 0%Z -> get_angle b = PI / 2)
  /\ ((e.2 = 0 /\ 0 < e.1)%Z -> get_angle b = 0).
Proof.
  intros Hb e. pose proof (longer_edge_nonzero b Hb) as He.
  pose proof PI_RGT_0 as Hpi. fold e in He.
  pose proof (linalg_norm_pos e He) as Hn.
  rewrite get_angle_unfold. fold e. split.
  - intros E. rewrite E.
    replace (0 / linalg_norm (to_float e)) with 0 by (field; lra).
    rewrite acos_0, py_mod_small by lra. lra.
  - intros [E2 E1]. pose proof (norm_sqr e) as Hs. rewrite E2 in Hs.
    apply IZR_lt in E1.
    assert (Hn' : linalg_norm (to_float e) = IZR e.1) by nra.
    rewrite Hn'. replace (IZR e.1 / IZR e.1) with 1 by (field; lra).
    rewrite acos_1, py_mod_small by lra. lra.
Qed.

Lemma get_angle_axis_aligned_witness :
  (edge1 box_east <> (0, 0)%Z \/ edge2 box_east <> (0, 0)%Z)
  /\ (let e := longer_edge box_east in
      (e.1 = 0%Z -> get_angle box_east = PI / 2)
      /\ ((e.2 = 0 /\ 0 < e.1)%Z -> get_angle box_east = 0)).
Proof.
  assert (H : edge1 box_east <> (0, 0)%Z \/ edge2 box_east <> (0, 0)%Z)
    by (left; vm_compute; discriminate).
  split; [exact H | exact (get_angle_axis_aligned box_east H)].
Defined.

(** ** The objects of [detect] *)

(** X4. Every object returned by [detect] has the fixed height 6.5 and a
    zero roll and pitch. *)
Theorem detect_fixed_fields {cv : OpenCV} (dimensions scale : R * R)
    (display d : View) (image : Frame) (h h' : gmap nat Frame)
    (detected : list DetectedObject) :
  detect image dimensions scale display h = (Ok (detected, d), h') ->
  Forall (fun o => (position o).2 = 6.5
                   /\ (orientation o).1.1 = 0
                   /\ (orientation o).1.2 = 0)
         detected.
Proof.
  intros Hrun. pose proof (detect_inv _ _ _ _ _ _ _ _ Hrun) as Hwf.
  rewrite (detect_ok _ _ _ _ _ Hwf) in Hrun.
  injection Hrun as Hd _ _. subst detected.
  apply List.Forall_forall. intros o Ho.
  apply in_map_iff in Ho. destruct Ho as (i & <- & _).
  repeat split.
Qed.

Lemma detect_fixed_fields_witness :
  Forall (fun o => (position o).2 = 6.5
                   /\ (orientation o).1.1 = 0
                   /\ (orientation o).1.2 = 0)
         [pose_value dimensions_640 scale_640 box_wide].
Proof.
  exact (detect_fixed_fields (cv := cv_plain [contour_a]) dimensions_640
           scale_640 _ _ blue_image ∅ _ _ detect_contour_a).
Defined.

(** ** The reported position *)

Lemma py_round2_le (x : R) (k : Z) :
  x <= IZR k / 100 -> py_round2 x <= IZR k / 100.
Proof.
  intros Hx. unfold py_round2. destruct (Rle_dec 0 x) as [_|_].
  - pose proof (Int_part_bounds (x * 100 + / 2)) as [Hlo _].
    set (n := Int_part (x * 100 + / 2)) in *.
    assert (Hn : (n < k + 1)%Z) by (apply lt_IZR; rewrite plus_IZR; lra).
    assert (Hn' : (n <= k)%Z) by lia. apply IZR_le in Hn'. lra.
  - pose proof (Int_part_bounds (- x * 100 + / 2)) as [_ Hhi].
    set (n := Int_part (- x * 100 + / 2)) in *.
    assert (Hn : (- k < n + 1)%Z)
      by (apply lt_IZR; rewrite plus_IZR, opp_IZR; lra).
    assert (Hn' : (- k <= n)%Z) by lia.
    apply IZR_le in Hn'. rewrite opp_IZR in Hn'. lra.
Qed.

Lemma py_round2_ge (x : R) (k : Z) :
  IZR k / 100 <= x -> IZR k / 100 <= py_round2 x.
Proof.
  intros Hx. unfold py_round2. destruct (Rle_dec 0 x) as [_|_].
  - pose proof (Int_part_bounds (x * 100 + / 2)) as [_ Hhi].
    set (n := Int_part (x * 100 + / 2)) in *.
    assert (Hn : (k < n + 1)%Z) by (apply lt_IZR; rewrite plus_IZR; lra).
    assert (Hn' : (k <= n)%Z) by lia. apply IZR_le in Hn'. lra.
  - pose proof (Int_part_bounds (- x * 100 + / 2)) as [Hlo _].
    set (n := Int_part (- x * 100 + / 2)) in *.
    assert (Hn : (n < - k + 1)%Z)
      by (apply lt_IZR; rewrite plus_IZR, opp_IZR; lra).
    assert (Hn' : (n <= - k)%Z) by lia.
    apply IZR_le in Hn'. rewrite opp_IZR in Hn'. lra.
Qed.

(** X5. With the dimensions and scale factors that [process_image] derives
    from the frame, a box whose centroid lies inside the region is
    reported inside the real-world region: x within 21.5 of zero and y
    within 10 of zero, rounding included. *)
Theorem position_inside_region (f : Frame) (b : BoxPoints) :
  (0 < frame_cols f)%Z -> (0 < frame_rows f - frame_rows f / 3)%Z ->
  0 <= (centroid b).1 <= (roi_dimensions f).1 ->
  0 <= (centroid b).2 <= (roi_dimensions f).2 ->
  let o := pose_value (roi_dimensions f) (roi_scale f) b in
  - (IZR ACTUAL_WIDTH / 2) <= (position o).1.1 <= IZR ACTUAL_WIDTH / 2
  /\ - (IZR ACTUAL_HEIGHT / 2) <= (position o).1.2 <= IZR ACTUAL_HEIGHT / 2.
Proof.
  intros Hc Hr Hx Hy o. subst o. unfold pose_value, roi_dimensions, roi_scale in *.
  cbn [position fst snd] in *. unfold ACTUAL_WIDTH, ACTUAL_HEIGHT.
  apply IZR_lt in Hc. apply IZR_lt in Hr.
  set (w := IZR (frame_cols f)) in *.
  set (hh := IZR (frame_rows f - frame_rows f / 3)) in *.
  set (cx := (centroid b).1) in *. set (cy := (centroid b).2) in *.
  assert (Hvx : (cx - w / 2) * (43 / w) = 43 * (cx / w) - 43 / 2)
    by (field; lra).
  assert (Hvy : (cy - hh / 2) * (20 / hh) = 20 * (cy / hh) - 20 / 2)
    by (field; lra).
  assert (Htx : 0 <= cx / w <= 1).
  { assert (E : cx / w * w = cx) by (field; lra).
    split; apply Rmult_le_reg_r with w; lra. }
  assert (Hty : 0 <= cy / hh <= 1).
  { assert (E : cy / hh * hh = cy) by (field; lra).
    split; apply Rmult_le_reg_r with hh; lra. }
  rewrite Hvx, Hvy.
  pose proof (py_round2_le (43 * (cx / w) - 43 / 2) 2150) as Hx1.
  pose proof (py_round2_ge (43 * (cx / w) - 43 / 2) (-2150)) as Hx2.
  pose proof (py_round2_le (20 * (cy / hh) - 20 / 2) 1000) as Hy1.
  pose proof (py_round2_ge (20 * (cy / hh) - 20 / 2) (-1000)) as Hy2.
  lra.
Qed.

(** X6. The sign convention of the position: a centroid right of the
    middle of the region gives x <= 0, left of it x >= 0; a centroid below
    the middle (larger pixel row) gives y >= 0, above it y <= 0.  The
    rounding keeps the signs. *)
Theorem position_signs (dimensions scale : R * R) (b : BoxPoints) :
  0 < scale.1 -> 0 < scale.2 ->
  let o := pose_value dimensions scale b in
  (dimensions.1 / 2 <= (centroid b).1 -> (position o).1.1 <= 0)
  /\ ((centroid b).1 <= dimensions.1 / 2 -> 0 <= (position o).1.1)
  /\ (dimensions.2 / 2 <= (centroid b).2 -> 0 <= (position o).1.2)
  /\ ((centroid b).2 <= dimensions.2 / 2 -> (position o).1.2 <= 0).
Proof.
  intros Hsx Hsy o. subst o. unfold pose_value. cbn [position fst snd].
  set (vx := ((centroid b).1 - dimensions.1 / 2) * scale.1).
  set (vy := ((centroid b).2 - dimensions.2 / 2) * scale.2).
  pose proof (py_round2_le vx 0) as Hx1.
  pose proof (py_round2_ge vx 0) as Hx2.
  pose proof (py_round2_le vy 0) as Hy1.
  pose proof (py_round2_ge vy 0) as Hy2.
  unfold vx, vy in *.
  repeat split; intros H.
  - assert (0 / 100 <= py_round2 (((centroid b).1 - dimensions.1 / 2) * scale.1))
      by (apply Hx2; nra). lra.
  - assert (py_round2 (((centroid b).1 - dimensions.1 / 2) * scale.1) <= 0 / 100)
      by (apply Hx1; nra). lra.
  - assert (0 / 100 <= py_round2 (((centroid b).2 - dimensions.2 / 2) * scale.2))
      by (apply Hy2; nra). lra.
  - assert (py_round2 (((centroid b).2 - dimensions.2 / 2) * scale.2) <= 0 / 100)
      by (apply Hy1; nra). lra.
Qed.

Lemma box_small_centroid : centroid box_small = (1, / 2).
Proof.
  unfold centroid, moments.
  replace (contour_sums (box_list box_small)) with (4, 12, 6)%Z
    by (vm_compute; reflexivity).
  simpl. f_equal; lra.
Qed.

Lemma position_inside_region_witness :
  let o := pose_value (roi_dimensions blue_frame) (roi_scale blue_frame)
                      box_small in
  - (IZR ACTUAL_WIDTH / 2) <= (position o).1.1 <= IZR ACTUAL_WIDTH / 2
  /\ - (IZR ACTUAL_HEIGHT / 2) <= (position o).1.2 <= IZR ACTUAL_HEIGHT / 2.
Proof.
  apply (position_inside_region blue_frame box_small).
  - vm_compute. reflexivity.
  - vm_compute. reflexivity.
  - rewrite box_small_centroid. unfold roi_dimensions. cbn [fst snd].
    replace (frame_cols blue_frame) with 3%Z by (vm_compute; reflexivity).
    lra.
  - rewrite box_small_centroid. unfold roi_dimensions. cbn [fst snd].
    replace (frame_rows blue_frame - frame_rows blue_frame / 3)%Z with 2%Z
      by (vm_compute; reflexivity).
    lra.
Defined.

Lemma position_signs_witness :
  let o := pose_value dimensions_640 scale_640 box_wide in
  (dimensions_640.1 / 2 <= (centroid box_wide).1 -> (position o).1.1 <= 0)
  /\ ((centroid box_wide).1 <= dimensions_640.1 / 2 -> 0 <= (position o).1.1)
  /\ (dimensions_640.2 / 2 <= (centroid box_wide).2 -> 0 <= (position o).1.2)
  /\ ((centroid box_wide).2 <= dimensions_640.2 / 2 -> (position o).1.2 <= 0).
Proof.
  apply (position_signs dimensions_640 scale_640 box_wide);
    unfold scale_640; cbn [fst snd]; lra.
Defined.

(** ** Frames without pixels *)

Lemma frame_rows_of_cols (f : Frame) :
  (0 < frame_cols f)%Z -> (0 < frame_rows f - frame_rows f / 3)%Z.
Proof.
  unfold frame_cols, frame_rows. destruct f as [|row f]; simpl length.
  - intros H. simpl in H. lia.
  - intros _.
    assert (H : (Z.of_nat (S (length f)) / 3 < Z.of_nat (S (length f)))%Z)
      by (apply Z.div_lt; lia).
    lia.
Qed.

Lemma roi_no_columns {cv : OpenCV} (raw : nat) (h : gmap nat Frame) :
  frame_cols (buffer h raw) = 0%Z ->
  roi raw h = (Raise ZeroDivisionError, h).
Proof.
  intros Hc. unfold roi, shape. fold (frame_cols (buffer h raw)).
  rewrite Hc. cbv zeta. cbn [fst snd].
  rewrite !trunc_IZR, Z.sub_0_r. unfold bind.
  rewrite py_div_zero by reflexivity. reflexivity.
Qed.

(** X7. On a frame without pixel columns (no row, or rows of no pixel)
    [process_image] raises [ZeroDivisionError] at the scale factors and
    draws nothing.  On every other frame the region of interest is
    computed: a frame with at least one pixel always has a positive
    cropped height. *)
Theorem process_image_empty_frame {cv : OpenCV} (raw : nat)
    (h : gmap nat Frame) :
  (frame_cols (buffer h raw) = 0%Z ->
   process_image raw h = (Raise ZeroDivisionError, h))
  /\ ((0 < frame_cols (buffer h raw))%Z ->
      exists r h', roi raw h = (Ok r, h')).
Proof.
  split.
  - intros Hc. unfold process_image, bind. rewrite (roi_no_columns raw h Hc).
    reflexivity.
  - intros Hc. pose proof (frame_rows_of_cols _ Hc) as Hr.
    pose proof (roi_unfold raw h Hc Hr) as Hroi. cbv zeta in Hroi.
    do 2 eexists. exact Hroi.
Qed.

Lemma process_image_empty_frame_witness :
  process_image (cv := cv_plain []) 0 ∅ = (Raise ZeroDivisionError, ∅)
  /\ exists r h', roi (cv := cv_plain []) 0 blue_heap = (Ok r, h').
Proof.
  destruct (process_image_empty_frame (cv := cv_plain []) 0 ∅) as [H _].
  destruct (process_image_empty_frame (cv := cv_plain []) 0 blue_heap)
    as [_ H'].
  split; [apply H; reflexivity|apply H'; vm_compute; reflexivity].
Defined.

(** ** The masks of the four colours *)

Lemma inRange_lookup (hsv : Frame) (lower upper : Pixel) (j i : nat)
    (row : list Pixel) (p : Pixel) :
  hsv !! j = Some row -> row !! i = Some p ->
  mask_at (inRange hsv lower upper) j i
  = Some (if in_range p lower upper then 255%Z else 0%Z).
Proof.
  intros Hrow Hp. unfold mask_at, inRange. unfold Mask, Frame in *.
  rewrite lookup_map, Hrow. simpl. rewrite lookup_map, Hp. reflexivity.
Qed.

Lemma threshold_lookup (c : ColorClass) (hsv : Frame) (j i : nat)
    (row : list Pixel) (p : Pixel) :
  hsv !! j = Some row -> row !! i = Some p ->
  exists k, mask_at (threshold c hsv) j i = Some k
            /\ (in_class c p -> k = 255%Z)
            /\ (~ in_class c p -> k = 0%Z).
Proof.
  intros Hrow Hp. destruct c; simpl.
  - destruct (red_mask_lookup hsv j i row p Hrow Hp) as (mrow & Hm & Hk).
    unfold mask_at. rewrite Hm, Hk. eexists. split; [reflexivity|].
    pose proof (in_range_within p LOWER_RED_1 UPPER_RED_1) as H1.
    pose proof (in_range_within p LOWER_RED_2 UPPER_RED_2) as H2.
    destruct (in_range p LOWER_RED_1 UPPER_RED_1);
      destruct (in_range p LOWER_RED_2 UPPER_RED_2); simpl;
      split; intros H; try reflexivity; exfalso; intuition discriminate.
  - rewrite (inRange_lookup hsv _ _ j i row p Hrow Hp).
    eexists. split; [reflexivity|].
    pose proof (in_range_within p LOWER_BLUE UPPER_BLUE) as H1.
    destruct (in_range p LOWER_BLUE UPPER_BLUE);
      split; intros H; try reflexivity; exfalso; intuition discriminate.
  - rewrite (inRange_lookup hsv _ _ j i row p Hrow Hp).
    eexists. split; [reflexivity|].
    pose proof (in_range_within p LOWER_GREEN UPPER_GREEN) as H1.
    destruct (in_range p LOWER_GREEN UPPER_GREEN);
      split; intros H; try reflexivity; exfalso; intuition discriminate.
  - rewrite (inRange_lookup hsv _ _ j i row p Hrow Hp).
    eexists. split; [reflexivity|].
    pose proof (in_range_within p LOWER_YELLOW UPPER_YELLOW) as H1.
    destruct (in_range p LOWER_YELLOW UPPER_YELLOW);
      split; intros H; try reflexivity; exfalso; intuition discriminate.
Qed.

Lemma threshold_length (c : ColorClass) (hsv : Frame) :
  length (threshold c hsv) = length hsv.
Proof.
  destruct c; simpl; unfold red_mask, bitwise_or, inRange;
    rewrite ?length_zip_with, ?length_map; lia.
Qed.

(** X8. For each of the four colours, the mask before the morphological
    cleanup has as many rows as the image; its entry at a pixel is 255 when
    the pixel is inside the range of the colour (one of the two ranges for
    red), bounds included, and 0 otherwise. *)
Theorem threshold_classes (c : ColorClass) (hsv : Frame) (j i : nat)
    (row : list Pixel) (p : Pixel) :
  hsv !! j = Some row -> row !! i = Some p ->
  length (threshold c hsv) = length hsv
  /\ exists k, mask_at (threshold c hsv) j i = Some k
               /\ (in_class c p -> k = 255%Z)
               /\ (~ in_class c p -> k = 0%Z).
Proof.
  intros Hrow Hp. split; [apply threshold_length|].
  apply (threshold_lookup c hsv j i row p Hrow Hp).
Qed.

Lemma threshold_classes_witness :
  length (threshold Blue blue_frame) = length blue_frame
  /\ exists k, mask_at (threshold Blue blue_frame) 1 2 = Some k
               /\ (in_class Blue blue_pixel -> k = 255%Z)
               /\ (~ in_class Blue blue_pixel -> k = 0%Z).
Proof.
  exact (threshold_classes Blue blue_frame 1 2
           (replicate 3 blue_pixel) blue_pixel eq_refl eq_refl).
Defined.

(** X9. A pixel whose saturation is below 60 is in no mask: unsaturated
    pixels (grey, white, black) belong to no colour. *)
Theorem low_saturation_unclassified (c : ColorClass) (hsv : Frame)
    (j i : nat) (row : list Pixel) (p : Pixel) :
  hsv !! j = Some row -> row !! i = Some p ->
  (p.1.2 < 60)%Z ->
  mask_at (threshold c hsv) j i = Some 0%Z.
Proof.
  intros Hrow Hp Hs.
  destruct (threshold_lookup c hsv j i row p Hrow Hp) as (k & Hk & _ & Hout).
  rewrite Hk. f_equal. apply Hout.
  destruct p as [[hue sat] val]. simpl in Hs.
  destruct c; unfold in_class, within; simpl; lia.
Qed.

Lemma low_saturation_unclassified_witness :
  mask_at (threshold Red [[(0, 0, 0)%Z]]) 0 0 = Some 0%Z.
Proof.
  exact (low_saturation_unclassified Red [[(0, 0, 0)%Z]] 0 0 [(0, 0, 0)%Z]
           (0, 0, 0)%Z eq_refl eq_refl ltac:(vm_compute; reflexivity)).
Defined.

(** * Properties of the node *)

(** ** [Camera.__init__] and [init_camera] *)

Lemma list_remove_in (x : string) (l : list string) :
  x ∈ l -> exists r, list_remove x l = Done r /\ (x :: r) ≡ₚ l.
Proof.
  induction l as [|y l IH]; intros Hx.
  - apply elem_of_nil in Hx. contradiction.
  - simpl. destruct (decide (y = x)) as [->|Hne].
    + exists l. split; reflexivity.
    + apply elem_of_cons in Hx. destruct Hx as [->|Hx]; [contradiction|].
      destruct (IH Hx) as (r & -> & Hperm). exists (y :: r).
      split; [reflexivity|]. rewrite <- Hperm. apply Permutation_swap.
Qed.

Lemma list_remove_not_in (x : string) (l : list string) :
  x ∉ l -> list_remove x l = Failed ValueError.
Proof.
  induction l as [|y l IH]; intros Hx; [reflexivity|].
  simpl. apply not_elem_of_cons in Hx. destruct Hx as [Hne Hx].
  destruct (decide (y = x)) as [->|_]; [contradiction|].
  rewrite (IH Hx). reflexivity.
Qed.

Lemma list_remove_NoDup (x : string) (l r : list string) :
  NoDup l -> list_remove x l = Done r -> x ∉ r.
Proof.
  intros Hnd Hr. destruct (decide (x ∈ l)) as [Hin|Hout].
  - destruct (list_remove_in x l Hin) as (r' & Hr' & Hperm).
    rewrite Hr in Hr'. injection Hr' as <-.
    rewrite <- Hperm in Hnd. apply NoDup_cons in Hnd. tauto.
  - rewrite (list_remove_not_in x l Hout) in Hr. discriminate Hr.
Qed.

Lemma known_cameras_NoDup : NoDup known_cameras.
Proof.
  unfold known_cameras. repeat (apply NoDup_cons; split);
    try (apply NoDup_nil; exact I);
    rewrite ?not_elem_of_cons; repeat split;
    try discriminate; apply not_elem_of_nil.
Qed.

Lemma Camera_init_known (controller : string -> CameraSettings)
    (name : string) :
  name ∈ known_cameras ->
  exists others,
    Camera_init controller name
    = Done (mkCamera name others ("/cameras/" +:+ name +:+ "/image")
                     (controller name))
    /\ (name :: others) ≡ₚ known_cameras /\ name ∉ others.
Proof.
  intros Hin. destruct (list_remove_in name known_cameras Hin)
    as (others & Hr & Hperm).
  exists others. unfold Camera_init. fold known_cameras. rewrite Hr.
  split; [reflexivity|]. split; [exact Hperm|].
  apply (list_remove_NoDup name known_cameras others known_cameras_NoDup Hr).
Qed.

Lemma Camera_init_unknown (controller : string -> CameraSettings)
    (name : string) :
  name ∉ known_cameras -> Camera_init controller name = Failed ValueError.
Proof.
  intros Hout. unfold Camera_init. fold known_cameras.
  rewrite (list_remove_not_in name known_cameras Hout). reflexivity.
Qed.

(** X10. [Camera.__init__] accepts exactly the three camera names it
    knows.  For one of them, [other_cameras] holds the two other names
    (the name itself is not among them) and [publisher] is the topic
    "/cameras/<name>/image"; for any other name it raises [ValueError]. *)
Theorem Camera_init_names (controller : string -> CameraSettings)
    (name : string) :
  (name ∈ known_cameras ->
   exists c,
     Camera_init controller name = Done c
     /\ camera c = name
     /\ (name :: other_cameras c) ≡ₚ known_cameras
     /\ (name ∉ other_cameras c)
     /\ length (other_cameras c) = 2%nat
     /\ publisher c = ("/cameras/" +:+ name +:+ "/image")%string)
  /\ (name ∉ known_cameras ->
      Camera_init controller name = Failed ValueError).
Proof.
  split.
  - intros Hin.
    destruct (Camera_init_known controller name Hin)
      as (others & Hc & Hperm & Hout).
    eexists. split; [exact Hc|]. cbn [camera other_cameras publisher].
    repeat split; try assumption.
    apply Permutation_length in Hperm. simpl in Hperm. lia.
  - apply Camera_init_unknown.
Qed.

Lemma Camera_init_names_witness :
  (exists c,
     Camera_init (fun _ => mkSettings 0 0 0 (0, 0)%Z 0 0 0) "head_camera"
     = Done c
     /\ camera c = "head_camera"%string
     /\ ("head_camera"%string :: other_cameras c) ≡ₚ known_cameras
     /\ ("head_camera"%string ∉ other_cameras c)
     /\ length (other_cameras c) = 2%nat
     /\ publisher c = ("/cameras/" +:+ "head_camera" +:+ "/image")%string)
  /\ Camera_init (fun _ => mkSettings 0 0 0 (0, 0)%Z 0 0 0) "torso_camera"
     = Failed ValueError.
Proof.
  destruct (Camera_init_names (fun _ => mkSettings 0 0 0 (0, 0)%Z 0 0 0)
              "head_camera") as [H _].
  destruct (Camera_init_names (fun _ => mkSettings 0 0 0 (0, 0)%Z 0 0 0)
              "torso_camera") as [_ H'].
  split.
  - apply H. unfold known_cameras. rewrite !elem_of_cons. auto.
  - apply H'. unfold known_cameras. rewrite !not_elem_of_cons.
    repeat split; try discriminate. apply not_elem_of_nil.
Defined.

Lemma configure_values (s : CameraSettings) :
  configure s
  = mkSettings 15 40 80 (640, 400)%Z (white_balance_red s)
               (white_balance_blue s) (white_balance_green s).
Proof. destruct s. vm_compute. reflexivity. Qed.

Lemma init_camera_unknown (controller : string -> CameraSettings)
    (name : string) (w : World) :
  name ∉ known_cameras ->
  init_camera controller name w = (Failed ValueError, w).
Proof.
  intros Hout. unfold init_camera, nbind, of_outcome.
  rewrite (Camera_init_unknown controller name Hout). reflexivity.
Qed.

Lemma init_camera_known (controller : string -> CameraSettings)
    (name : string) :
  name ∈ known_cameras ->
  exists c,
    camera c = name
    /\ forall w,
        init_camera controller name w
        = (Done tt, mkWorld (w_heap w) (w_log w ++ [Opened c; Slept 1])).
Proof.
  intros Hin.
  destruct (Camera_init_known controller name Hin) as (others & Hc & _).
  eexists. split; [|intros w; unfold init_camera, nbind, of_outcome;
                    rewrite Hc; unfold emit; cbn [w_heap w_log];
                    rewrite <- app_assoc; reflexivity].
  reflexivity.
Qed.

(** X11. [init_camera] with a name that [Camera.__init__] does not know
    raises [ValueError] and opens no camera.  With a known name it opens
    that camera with 15 frames per second, gain 40, exposure 80 and
    resolution 640 by 400, leaves the three white-balance settings as the
    controller had them (their configured value is -1), and sleeps one
    second. *)
Theorem init_camera_settings (controller : string -> CameraSettings)
    (name : string) (w : World) :
  (name ∉ known_cameras ->
   init_camera controller name w = (Failed ValueError, w))
  /\ (name ∈ known_cameras ->
      exists c,
        Camera_init controller name = Done c
        /\ init_camera controller name w
           = (Done tt,
              mkWorld (w_heap w)
                (w_log w
                 ++ [Opened
                       (with_settings c
                          (mkSettings 15 40 80 (640, 400)%Z
                             (white_balance_red (controller name))
                             (white_balance_blue (controller name))
                             (white_balance_green (controller name))));
                     Slept 1]))).
Proof.
  split.
  - intros Hout. unfold init_camera, nbind, of_outcome.
    rewrite (Camera_init_unknown controller name Hout). reflexivity.
  - intros Hin.
    destruct (Camera_init_known controller name Hin) as (others & Hc & _).
    eexists. split; [exact Hc|].
    unfold init_camera, nbind, of_outcome. rewrite Hc.
    unfold emit. cbn [w_heap w_log settings]. rewrite configure_values.
    rewrite <- app_assoc. reflexivity.
Qed.

Lemma init_camera_settings_witness :
  init_camera (fun _ => mkSettings 0 0 0 (0, 0)%Z 7 8 9) "torso_camera"
              (mkWorld ∅ [])
  = (Failed ValueError, mkWorld ∅ [])
  /\ exists c,
       Camera_init (fun _ => mkSettings 0 0 0 (0, 0)%Z 7 8 9) "head_camera"
       = Done c
       /\ init_camera (fun _ => mkSettings 0 0 0 (0, 0)%Z 7 8 9)
                      "head_camera" (mkWorld ∅ [])
          = (Done tt,
             mkWorld ∅
               ([] ++ [Opened
                         (with_settings c
                            (mkSettings 15 40 80 (640, 400)%Z 7 8 9));
                       Slept 1])).
Proof.
  destruct (init_camera_settings (fun _ => mkSettings 0 0 0 (0, 0)%Z 7 8 9)
              "torso_camera" (mkWorld ∅ [])) as [H _].
  destruct (init_camera_settings (fun _ => mkSettings 0 0 0 (0, 0)%Z 7 8 9)
              "head_camera" (mkWorld ∅ [])) as [_ H'].
  split.
  - apply H. unfold known_cameras. rewrite !not_elem_of_cons.
    repeat split; try discriminate. apply not_elem_of_nil.
  - apply H'. unfold known_cameras. rewrite !elem_of_cons. auto.
Defined.

(** ** The published messages *)

Lemma flatten_cons (o : DetectedObject) (l : list DetectedObject) :
  flatten (o :: l)
  = [(position o).1.1; (position o).1.2; (position o).2;
     (orientation o).1.1; (orientation o).1.2; (orientation o).2]
    ++ flatten l.
Proof.
  destruct o as [[[x y] z] [[roll pitch] yaw]]. reflexivity.
Qed.

Lemma flatten_length (l : list DetectedObject) :
  length (flatten l) = (6 * length l)%nat.
Proof.
  induction l as [|o l IH]; [reflexivity|].
  rewrite flatten_cons, length_app, IH. simpl. lia.
Qed.

Lemma flatten_chunk (l : list DetectedObject) (i : nat) (o : DetectedObject) :
  l !! i = Some o ->
  take 6 (drop (6 * i) (flatten l))
  = [(position o).1.1; (position o).1.2; (position o).2;
     (orientation o).1.1; (orientation o).1.2; (orientation o).2].
Proof.
  revert i. induction l as [|o' l IH]; intros i Hi; [discriminate Hi|].
  rewrite flatten_cons. destruct i as [|i].
  - injection Hi as ->. reflexivity.
  - simpl in Hi. replace (6 * S i)%nat with (6 + 6 * i)%nat by lia.
    change (drop (6 + 6 * i) (?a ++ flatten l))
      with (drop (6 * i) (flatten l)).
    apply IH. exact Hi.
Qed.

(** X12. The message built from a detection list holds six numbers per
    object, in the order of the list: the numbers of the object at index i
    are at positions 6i to 6i+5, in the order x, y, z, roll, pitch, yaw. *)
Theorem flatten_layout (l : list DetectedObject) (i : nat)
    (o : DetectedObject) :
  l !! i = Some o ->
  length (flatten l) = (6 * length l)%nat
  /\ take 6 (drop (6 * i) (flatten l))
     = [(position o).1.1; (position o).1.2; (position o).2;
        (orientation o).1.1; (orientation o).1.2; (orientation o).2].
Proof.
  intros Hi. split; [apply flatten_length|apply flatten_chunk; exact Hi].
Qed.

Lemma flatten_layout_witness :
  let o := pose_value dimensions_640 scale_640 box_wide in
  length (flatten [o; o]) = (6 * length [o; o])%nat
  /\ take 6 (drop (6 * 1) (flatten [o; o]))
     = [(position o).1.1; (position o).1.2; (position o).2;
        (orientation o).1.1; (orientation o).1.2; (orientation o).2].
Proof.
  exact (flatten_layout
           [pose_value dimensions_640 scale_640 box_wide;
            pose_value dimensions_640 scale_640 box_wide] 1 _ eq_refl).
Defined.

(** ** The loop of [main] *)

Lemma process_image_three {cv : OpenCV} (raw : nat) (h h' : gmap nat Frame)
    (arr : list (list DetectedObject)) (comb : Frame) :
  process_image raw h = (Ok (arr, comb), h') ->
  exists cubes cuboids long_cuboids, arr = [cubes; cuboids; long_cuboids].
Proof.
  unfold process_image, bind.
  destruct (roi raw h) as [[[[d s] v]|e] h1]; [|discriminate].
  cbn [fst snd]. unfold read_view at 1.
  destruct (detect _ d s v h1) as [[[cubes d1]|e1] h2]; [|discriminate].
  cbn [fst snd].
  destruct (detect _ d s d1 h2) as [[[cuboids d2]|e2] h3]; [|discriminate].
  cbn [fst snd].
  destruct (detect _ d s d2 h3) as [[[long_cuboids d3]|e3] h4];
    [|discriminate].
  cbn [fst snd]. intros [= <- _ _].
  exists cubes, cuboids, long_cuboids. reflexivity.
Qed.

Lemma main_step_ok {cv : OpenCV} (publisher camera : string) (msg : Frame)
    (w : World) (cubes cuboids long_cuboids : list DetectedObject)
    (processed : Frame) (h' : gmap nat Frame) :
  let raw := fresh (dom (w_heap w)) in
  process_image raw (<[raw := msg]> (w_heap w))
  = (Ok ([cubes; cuboids; long_cuboids], processed), h') ->
  main_step publisher camera msg w
  = (Done tt,
     mkWorld h'
       (w_log w
        ++ frame_messages publisher camera cubes cuboids long_cuboids
                          processed)).
Proof.
  intros raw Hrun. unfold main_step, nbind, new_array, run_pipeline.
  fold raw. cbn [w_heap w_log]. rewrite Hrun. cbn [fst snd].
  unfold emit, frame_messages. cbn. rewrite <- !app_assoc. reflexivity.
Qed.

Lemma main_step_raise {cv : OpenCV} (publisher camera : string) (msg : Frame)
    (w : World) (e : exn) (h' : gmap nat Frame) :
  let raw := fresh (dom (w_heap w)) in
  process_image raw (<[raw := msg]> (w_heap w)) = (Raise e, h') ->
  main_step publisher camera msg w
  = (Failed (PipelineError e), mkWorld h' (w_log w)).
Proof.
  intros raw Hrun. unfold main_step, nbind, new_array, run_pipeline.
  fold raw. cbn [w_heap w_log]. rewrite Hrun. reflexivity.
Qed.

(** X13. For one incoming frame, when [process_image] returns, the loop
    publishes exactly four messages, in this order: the combined image on
    "/cameras/<camera>/image/processed", then the first, second and third
    detection lists, flattened, on "<publisher>/cubes",
    "<publisher>/cylinders" and "<publisher>/pluses".  When
    [process_image] raises, nothing is published for the frame and the
    exception leaves the loop body. *)
Theorem main_step_publishes {cv : OpenCV} (publisher camera : string)
    (msg : Frame) (w : World) :
  let raw := fresh (dom (w_heap w)) in
  (forall arr processed h',
     process_image raw (<[raw := msg]> (w_heap w)) = (Ok (arr, processed), h') ->
     exists cubes cuboids long_cuboids,
       arr = [cubes; cuboids; long_cuboids]
       /\ main_step publisher camera msg w
          = (Done tt,
             mkWorld h'
               (w_log w
                ++ [Published ("/cameras/" +:+ camera +:+ "/image/processed")
                              (ImageMsg processed);
                    Published (publisher +:+ "/cubes")
                              (FloatsMsg (flatten cubes));
                    Published (publisher +:+ "/cylinders")
                              (FloatsMsg (flatten cuboids));
                    Published (publisher +:+ "/pluses")
                              (FloatsMsg (flatten long_cuboids))])))
  /\ (forall e h',
        process_image raw (<[raw := msg]> (w_heap w)) = (Raise e, h') ->
        main_step publisher camera msg w
        = (Failed (PipelineError e), mkWorld h' (w_log w))).
Proof.
  intros raw. split.
  - intros arr processed h' Hrun.
    destruct (process_image_three _ _ _ _ _ Hrun)
      as (cubes & cuboids & long_cuboids & ->).
    exists cubes, cuboids, long_cuboids. split; [reflexivity|].
    apply (main_step_ok publisher camera msg w _ _ _ _ _ Hrun).
  - intros e h' Hrun. apply (main_step_raise publisher camera msg w _ _ Hrun).
Qed.

Lemma main_loop_app {cv : OpenCV} (publisher camera : string)
    (fs1 fs2 : list Frame) (w : World) :
  main_loop publisher camera (fs1 ++ fs2) w
  = match main_loop publisher camera fs1 w with
    | (Done _, w1) => main_loop publisher camera fs2 w1
    | (Failed e, w1) => (Failed e, w1)
    end.
Proof.
  revert w. induction fs1 as [|f fs1 IH]; intros w; [reflexivity|].
  simpl. unfold nbind.
  destruct (main_step publisher camera f w) as [[[]|e] w1]; [apply IH|].
  reflexivity.
Qed.

(** X14. The loop ends at the first frame on which [process_image] raises:
    the exception leaves [main], nothing is published for that frame, and
    the frames after it are never processed.  What was published for the
    frames before it stays in the log. *)
Theorem main_loop_stops {cv : OpenCV} (publisher camera : string)
    (fs1 fs2 : list Frame) (f : Frame) (w w1 : World) (e : exn)
    (h' : gmap nat Frame) :
  main_loop publisher camera fs1 w = (Done tt, w1) ->
  process_image (fresh (dom (w_heap w1)))
                (<[fresh (dom (w_heap w1)) := f]> (w_heap w1))
  = (Raise e, h') ->
  main_loop publisher camera (fs1 ++ f :: fs2) w
  = (Failed (PipelineError e), mkWorld h' (w_log w1)).
Proof.
  intros H1 Hf. rewrite main_loop_app, H1. simpl. unfold nbind.
  rewrite (main_step_raise publisher camera f w1 e h' Hf). reflexivity.
Qed.

Lemma process_image_no_columns {cv : OpenCV} (raw : nat)
    (h : gmap nat Frame) :
  frame_cols (buffer h raw) = 0%Z ->
  process_image raw h = (Raise ZeroDivisionError, h).
Proof.
  intros Hc. unfold process_image, bind. rewrite (roi_no_columns raw h Hc).
  reflexivity.
Qed.

Lemma main_loop_stops_witness :
  main_loop (cv := cv_plain []) "/easy_baxter/arrangement" "head_camera"
            ([] ++ [] :: [blue_frame]) (mkWorld ∅ [])
  = (Failed (PipelineError ZeroDivisionError),
     mkWorld (<[fresh (dom (∅ : gmap nat Frame)) := []]> ∅) []).
Proof.
  apply (main_loop_stops (cv := cv_plain []) "/easy_baxter/arrangement"
           "head_camera" [] [blue_frame] [] (mkWorld ∅ []) (mkWorld ∅ [])
           ZeroDivisionError).
  - reflexivity.
  - cbn [w_heap]. apply process_image_no_columns.
    rewrite buffer_insert. reflexivity.
Defined.

Lemma in_sixes_flatten (topic : string) (l : list DetectedObject) :
  in_sixes (Published topic (FloatsMsg (flatten l))).
Proof.
  simpl. exists (length l). rewrite flatten_length. lia.
Qed.

Lemma main_step_log {cv : OpenCV} (publisher camera : string) (msg : Frame)
    (w : World) :
  exists new,
    w_log (main_step publisher camera msg w).2 = w_log w ++ new
    /\ Forall in_sixes new
    /\ ((main_step publisher camera msg w).1 = Done tt -> length new = 4%nat)
    /\ (forall e, (main_step publisher camera msg w).1 = Failed e -> new = []).
Proof.
  destruct (process_image (fresh (dom (w_heap w)))
              (<[fresh (dom (w_heap w)) := msg]> (w_heap w)))
    as [[[arr processed]|e] h'] eqn:Hrun.
  - destruct (process_image_three _ _ _ _ _ Hrun)
      as (cubes & cuboids & long_cuboids & ->).
    rewrite (main_step_ok publisher camera msg w _ _ _ _ _ Hrun).
    eexists. split; [reflexivity|]. split; [|split].
    + unfold frame_messages.
      repeat (apply Forall_cons; split);
        try apply in_sixes_flatten; try exact I. apply Forall_nil. exact I.
    + intros _. reflexivity.
    + intros e H. discriminate H.
  - rewrite (main_step_raise publisher camera msg w _ _ Hrun).
    exists []. cbn [fst snd w_log]. rewrite app_nil_r.
    split; [reflexivity|]. split; [apply Forall_nil; exact I|].
    split; [intros H; discriminate H|]. reflexivity.
Qed.

(** X15. Whatever the frames and however the loop ends, the log only
    grows; the loop adds messages in groups of four, at most one group per
    incoming frame and exactly one per frame when it ends normally; every
    message of numbers it publishes holds a multiple of six numbers. *)
Theorem main_loop_log {cv : OpenCV} (publisher camera : string)
    (incoming : list Frame) (w : World) :
  exists new,
    w_log (main_loop publisher camera incoming w).2 = w_log w ++ new
    /\ Forall in_sixes new
    /\ Nat.divide 4 (length new)
    /\ (length new <= 4 * length incoming)%nat
    /\ ((main_loop publisher camera incoming w).1 = Done tt ->
        length new = (4 * length incoming)%nat).
Proof.
  revert w. induction incoming as [|f fs IH]; intros w.
  - exists []. simpl. rewrite app_nil_r.
    split; [reflexivity|]. split; [apply Forall_nil; exact I|].
    split; [exists 0%nat; reflexivity|]. split; [lia|]. reflexivity.
  - destruct (main_step_log publisher camera f w)
      as (new1 & Hlog1 & Hsix1 & Hok1 & Hfail1).
    simpl. unfold nbind.
    destruct (main_step publisher camera f w) as [[[]|e] w1];
      cbn [fst snd] in *.
    + destruct (IH w1) as (new2 & Hlog2 & Hsix2 & Hdiv2 & Hle2 & Hok2).
      exists (new1 ++ new2). rewrite Hlog2, Hlog1, <- app_assoc.
      specialize (Hok1 eq_refl).
      split; [reflexivity|]. split; [apply Forall_app; split; assumption|].
      rewrite length_app, Hok1. split.
      * destruct Hdiv2 as [k Hk]. exists (1 + k)%nat. lia.
      * split; [lia|]. intros Hdone. rewrite (Hok2 Hdone). lia.
    + rewrite (Hfail1 e eq_refl) in *. exists [].
      split; [exact Hlog1|]. split; [apply Forall_nil; exact I|].
      split; [exists 0%nat; reflexivity|]. split; [simpl; lia|].
      intros H. discriminate H.
Qed.

(** ** Start-up *)

(** X16. [main] first shows the image "smiley.jpg" of the package on
    "/robot/xdisplay" and sleeps a second, then sets the camera up.  With a
    camera name that [Camera.__init__] does not know it stops there with
    [ValueError]: no camera is opened and no frame is processed.  With a
    known name the camera is opened before the first frame is processed,
    and the loop starts from the log of these five events. *)
Theorem main_startup {cv : OpenCV} (controller : string -> CameraSettings)
    (imread : string -> Frame) (PKG_DIR node publisher name : string)
    (incoming : list Frame) (w : World) :
  let shown :=
    [InitNode node;
     Published "/robot/xdisplay" (ImageMsg (imread (PKG_DIR +:+ "/smiley.jpg")));
     Slept 1] in
  (name ∉ known_cameras ->
   main controller imread PKG_DIR node publisher name incoming w
   = (Failed ValueError, mkWorld (w_heap w) (w_log w ++ shown)))
  /\ (name ∈ known_cameras ->
      exists c,
        camera c = name
        /\ main controller imread PKG_DIR node publisher name incoming w
           = main_loop publisher name incoming
               (mkWorld (w_heap w)
                        (w_log w ++ shown ++ [Opened c; Slept 1]))).
Proof.
  intros shown. split.
  - intros Hout. unfold main, nbind at 1 2 3, display_image, emit.
    unfold nbind at 1. cbn [w_heap w_log].
    rewrite (init_camera_unknown controller name _ Hout). unfold shown. rewrite <- !app_assoc. reflexivity.
  - intros Hin. unfold main, nbind at 1 2 3, display_image, emit.
    unfold nbind at 1. cbn [w_heap w_log].
    destruct (init_camera_known controller name Hin) as (c & Hname & Hinit).
    exists c. split; [exact Hname|]. rewrite Hinit. cbn [w_heap w_log].
    unfold shown. rewrite <- !app_assoc. reflexivity.
Qed.

(** * Further properties of the drawing and the masking *)

Lemma take_splice {A} (lo : Z) (new l : list A) :
  (Z.to_nat lo <= length l)%nat ->
  take (Z.to_nat lo) (splice lo new l) = take (Z.to_nat lo) l.
Proof.
  intros Hlo. unfold splice.
  rewrite take_app_le by (rewrite length_take; lia).
  rewrite take_take. f_equal. lia.
Qed.

Lemma take_paste (f : Frame) (rows cols : Z * Z) (new : Frame) :
  take (Z.to_nat rows.1) (paste f rows cols new) = take (Z.to_nat rows.1) f.
Proof.
  unfold paste. destruct (decide (Z.to_nat rows.1 <= length f)%nat) as [Hle|Hgt].
  - apply take_splice. exact Hle.
  - unfold py_slice. rewrite (drop_ge f) by lia.
    rewrite take_nil. simpl. unfold splice. simpl.
    rewrite (drop_ge f) by lia. rewrite app_nil_r.
    rewrite take_take. f_equal. lia.
Qed.

Lemma overlay_take {cv : OpenCV} (display : View) (boxes : list BoxPoints)
    (h : gmap nat Frame) :
  take (Z.to_nat (v_rows display).1) (buffer (overlay display boxes h)
                                             (v_base display))
  = take (Z.to_nat (v_rows display).1) (buffer h (v_base display)).
Proof.
  revert h. induction boxes as [|b boxes IH]; intros h; [reflexivity|].
  rewrite overlay_cons, IH. unfold draw_on_view. cbn [snd].
  rewrite buffer_insert. apply take_paste.
Qed.

(** X17. The overlays stay inside the region of interest: after
    [process_image], whatever was detected and however the call ended, the
    rows of the caller's frame above the region, the first floor(rows/3)
    ones, are those of the frame with the boundary drawn. *)
Theorem process_image_overlays_confined {cv : OpenCV} (raw : nat)
    (h : gmap nat Frame) :
  let f := buffer h raw in
  (0 < frame_cols f)%Z -> (0 < frame_rows f - frame_rows f / 3)%Z ->
  take (Z.to_nat (frame_rows f / 3)) (buffer (process_image raw h).2 raw)
  = take (Z.to_nat (frame_rows f / 3)) (boundary f).
Proof.
  intros f Hc Hr.
  destruct (process_image_heap raw h Hc Hr) as (boxes & Hh & _).
  fold f in Hh. rewrite Hh.
  pose proof (overlay_take (roi_view raw f) boxes (<[raw := boundary f]> h))
    as Ht.
  cbn [roi_view v_rows v_base roi_rows fst] in Ht. rewrite Ht.
  rewrite buffer_insert. reflexivity.
Qed.

Lemma process_image_overlays_confined_witness :
  take (Z.to_nat (frame_rows (buffer blue_heap 0) / 3))
       (buffer (process_image (cv := cv_plain [contour_a]) 0 blue_heap).2 0)
  = take (Z.to_nat (frame_rows (buffer blue_heap 0) / 3))
         (boundary (cv := cv_plain [contour_a]) (buffer blue_heap 0)).
Proof.
  exact (process_image_overlays_confined (cv := cv_plain [contour_a]) 0
           blue_heap blue_heap_cols blue_heap_rows).
Defined.

Lemma bitwise_and_pixel (image : Frame) (m : Mask) (j i : nat) (q : Pixel) :
  pixel_at (bitwise_and image image m) j i = Some q ->
  q = (0, 0, 0)%Z \/ pixel_at image j i = Some q.
Proof.
  unfold pixel_at, bitwise_and. unfold Frame, Mask in *.
  destruct (zip_with _ (zip image image) m !! j) as [row|] eqn:Hrow;
    [|discriminate].
  apply lookup_zip_with_Some in Hrow.
  destruct Hrow as ([a b] & mrow & -> & Hz & _).
  apply lookup_zip_with_Some in Hz.
  destruct Hz as (a' & b' & [= -> ->] & Ha & Hb).
  rewrite Ha in Hb. injection Hb as <-. rewrite Ha. cbn [fst snd].
  intros Hq. apply lookup_zip_with_Some in Hq.
  destruct Hq as ([x y] & k & -> & Hp & _).
  apply lookup_zip_with_Some in Hp.
  destruct Hp as (x' & y' & [= -> ->] & Hx & Hy).
  rewrite Hx in Hy. injection Hy as <-.
  destruct x' as [[p0 p1] p2]. destruct (k =? 0)%Z.
  - left. reflexivity.
  - right. rewrite !Z.land_diag. exact Hx.
Qed.

(** X18. Masking never alters a colour: each pixel of the masked image of
    a class is black or is the pixel of the denoised image at the same
    place. *)
Theorem masked_pixels {cv : OpenCV} (c : ColorClass) (image hsv : Frame)
    (kernel : Mask) (j i : nat) (q : Pixel) :
  pixel_at (masked c image hsv kernel) j i = Some q ->
  q = (0, 0, 0)%Z \/ pixel_at image j i = Some q.
Proof. unfold masked. apply bitwise_and_pixel. Qed.

Lemma masked_pixels_witness :
  blue_pixel = (0, 0, 0)%Z \/ pixel_at blue_frame 1 2 = Some blue_pixel.
Proof.
  apply (masked_pixels (cv := cv_plain []) Blue blue_frame blue_frame [] 1 2).
  vm_compute. reflexivity.
Defined.
